(** * app-logger: the leveled logging facade of [src/index.js]

    A shallow embedding of the logger class [AppLogger], of the module-level
    helpers [formatDate] and [createLogString], and of the constants
    [DEFAULT_CONFIG], [DATE_OPTIONS] and [LOGGING_LEVELS], followed by the
    properties of the specification stated over that embedding.

    The JavaScript built-ins the source calls ([toUpperCase], [padStart],
    [split], [JSON.stringify], truthiness) are written out in module [Js].
    The wrapped logging engine and the platform's locale-aware date rendering
    are not repository code: [Engine] follows what the engine does with the
    calls the class makes, [Intl] the rendering the specification gives. *)

From Stdlib Require Import ZArith String Ascii List Lia DecimalString.
From stdpp Require Import base option list strings.

Open Scope string_scope.
Set Warnings "-register-all".
#[local] Arguments String.append !s1 s2 : simpl nomatch.

(** ** JavaScript values and built-ins *)

Module Js.

(** The one kind of exception the modelled built-ins raise. *)
Inductive JsError : Type :=
| TypeError (what : string).

(** The outcome of evaluating an expression that may throw. *)
Inductive JsResult (A : Type) : Type :=
| Ok (a : A)
| Throw (e : JsError).
Arguments Ok {A} a.
Arguments Throw {A} e.

Definition bind {A B : Type} (r : JsResult A) (k : A -> JsResult B) : JsResult B :=
  match r with
  | Ok a => k a
  | Throw e => Throw e
  end.

(** The state of the promise an [async] method returns. *)
Inductive Completion : Type :=
| Resolved
| Rejected (e : JsError)
| Pending.

(** The values a caller can pass as the payload [obj].  [JsNumber z] is
    the number [z] for a safe integer [z], of magnitude below 2^53, which
    prints with all its digits; an object is its property list in
    enumeration order. *)
Inductive JsValue : Type :=
| JsUndefined
| JsNull
| JsBoolean (b : bool)
| JsNumber (z : Z)
| JsBigInt (z : Z)
| JsString (s : string)
| JsFunction
| JsArray (items : list JsValue)
| JsObject (props : list (string * JsValue)).

(** [ToBoolean]: what [if (v)] tests. *)
Definition truthy (v : JsValue) : bool :=
  match v with
  | JsUndefined | JsNull => false
  | JsBoolean b => b
  | JsNumber z | JsBigInt z => negb (Z.eqb z 0)
  | JsString s => negb (String.eqb s "")
  | JsFunction | JsArray _ | JsObject _ => true
  end.

(** [String.prototype.toUpperCase] on the ASCII letters. *)
Definition upper_ascii (c : ascii) : ascii :=
  let n := nat_of_ascii c in
  if (97 <=? n)%nat && (n <=? 122)%nat then ascii_of_nat (n - 32) else c.

Fixpoint toUpperCase (s : string) : string :=
  match s with
  | EmptyString => EmptyString
  | String c r => String (upper_ascii c) (toUpperCase r)
  end.

Fixpoint spaces (n : nat) : string :=
  match n with
  | O => EmptyString
  | S k => String " "%char (spaces k)
  end.

(** [s.padStart(width)]: blanks are put in front until the text is [width]
    long; a text that is already that long is returned as it is. *)
Definition padStart (width : nat) (s : string) : string :=
  spaces (width - String.length s) ++ s.

(** [s.split(sep)] for a one-character separator. *)
Fixpoint split (sep : ascii) (s : string) : list string :=
  match s with
  | EmptyString => [EmptyString]
  | String c r =>
      if Ascii.eqb c sep then EmptyString :: split sep r
      else match split sep r with
           | piece :: pieces => String c piece :: pieces
           | [] => [String c EmptyString]
           end
  end.

(** [const [first] = s.split(sep)]: the text before the first separator. *)
Fixpoint split_first (sep : ascii) (s : string) : string :=
  match s with
  | EmptyString => EmptyString
  | String c r => if Ascii.eqb c sep then EmptyString else String c (split_first sep r)
  end.

(** A destructured array element or a missing property inside a template
    literal: a missing one is [undefined] and prints as that word. *)
Definition template (piece : option string) : string :=
  match piece with
  | Some s => s
  | None => "undefined"
  end.

Definition decimal (z : Z) : string := NilZero.string_of_int (Z.to_int z).

Definition hex_digit (n : nat) : ascii :=
  if (n <? 10)%nat then ascii_of_nat (48 + n) else ascii_of_nat (87 + n).

(** One character of a JSON string literal. *)
Definition quote_char (c : ascii) : string :=
  let n := nat_of_ascii c in
  if Nat.eqb n 34 then String (ascii_of_nat 92) (String (ascii_of_nat 34) EmptyString)
  else if Nat.eqb n 92 then "\\"
  else if Nat.eqb n 8 then "\b"
  else if Nat.eqb n 12 then "\f"
  else if Nat.eqb n 10 then "\n"
  else if Nat.eqb n 13 then "\r"
  else if Nat.eqb n 9 then "\t"
  else if (n <? 32)%nat then
    "\u00" ++ String (hex_digit (n / 16)) (String (hex_digit (n mod 16)) EmptyString)
  else String c EmptyString.

Fixpoint quote_chars (s : string) : string :=
  match s with
  | EmptyString => EmptyString
  | String c r => quote_char c ++ quote_chars r
  end.

Definition QuoteJSONString (s : string) : string :=
  String (ascii_of_nat 34) (quote_chars s ++ String (ascii_of_nat 34) EmptyString).

Fixpoint join (sep : string) (l : list string) : string :=
  match l with
  | [] => EmptyString
  | [x] => x
  | x :: r => x ++ sep ++ join sep r
  end.

(** [SerializeJSONProperty] without indentation: [None] is [undefined]
    (the value has no JSON text), a BigInt anywhere in the value throws. *)
Fixpoint SerializeJSONProperty (v : JsValue) : JsResult (option string) :=
  match v with
  | JsUndefined | JsFunction => Ok None
  | JsNull => Ok (Some "null")
  | JsBoolean b => Ok (Some (if b then "true" else "false"))
  | JsNumber z => Ok (Some (decimal z))
  | JsBigInt _ => Throw (TypeError "Do not know how to serialize a BigInt")
  | JsString s => Ok (Some (QuoteJSONString s))
  | JsArray items =>
      bind ((fix elements (l : list JsValue) : JsResult (list string) :=
               match l with
               | [] => Ok []
               | x :: r =>
                   bind (SerializeJSONProperty x) (fun t =>
                   bind (elements r) (fun ts =>
                   Ok (match t with Some s => s | None => "null" end :: ts)))
               end) items)
           (fun ts => Ok (Some ("[" ++ join "," ts ++ "]")))
  | JsObject props =>
      bind ((fix members (l : list (string * JsValue)) : JsResult (list string) :=
               match l with
               | [] => Ok []
               | (k, x) :: r =>
                   bind (SerializeJSONProperty x) (fun t =>
                   bind (members r) (fun ts =>
                   Ok (match t with
                       | Some s => (QuoteJSONString k ++ ":" ++ s) :: ts
                       | None => ts
                       end)))
               end) props)
           (fun ts => Ok (Some ("{" ++ join "," ts ++ "}")))
  end.

Definition JSON_stringify (v : JsValue) : JsResult (option string) :=
  SerializeJSONProperty v.

End Js.

Import Js.

(** ** Configuration and constants *)

(** The locale tags the repository uses for [dateLocale]: the default
    ['de-DE'] and the ['en-US'] of its test suite. *)
Inductive Locale : Type :=
| de_DE
| en_US.

(** [LoggerConfig] of [index.d.ts], every field present. *)
Record LoggerConfig : Type := {
  logTracelevel : string;
  consoleOutput : string;
  logPath : string;
  dateLocale : Locale;
  fileRotation : bool;
  maxFileSize : string;
  maxFiles : string
}.

(** The object a caller passes to the constructor or to [updateConfig]:
    any subset of the fields. *)
Record PartialConfig : Type := {
  logTracelevel_opt : option string;
  consoleOutput_opt : option string;
  logPath_opt : option string;
  dateLocale_opt : option Locale;
  fileRotation_opt : option bool;
  maxFileSize_opt : option string;
  maxFiles_opt : option string
}.

(** The empty object literal. *)
Definition no_options : PartialConfig :=
  {| logTracelevel_opt := None; consoleOutput_opt := None; logPath_opt := None;
     dateLocale_opt := None; fileRotation_opt := None; maxFileSize_opt := None;
     maxFiles_opt := None |}.

(** The object spread [{ ...base, ...over }]. *)
Definition spread (base : LoggerConfig) (over : PartialConfig) : LoggerConfig :=
  {| logTracelevel := default (logTracelevel base) (logTracelevel_opt over);
     consoleOutput := default (consoleOutput base) (consoleOutput_opt over);
     logPath := default (logPath base) (logPath_opt over);
     dateLocale := default (dateLocale base) (dateLocale_opt over);
     fileRotation := default (fileRotation base) (fileRotation_opt over);
     maxFileSize := default (maxFileSize base) (maxFileSize_opt over);
     maxFiles := default (maxFiles base) (maxFiles_opt over) |}.

Definition DEFAULT_CONFIG : LoggerConfig :=
  {| logTracelevel := "info";
     consoleOutput := "on";
     logPath := "./logs/";
     dateLocale := de_DE;
     fileRotation := false;
     maxFileSize := "20m";
     maxFiles := "14d" |}.

Inductive FieldStyle : Type :=
| two_digit
| numeric.

Record DateTimeFormatOptions : Type := {
  month : FieldStyle;
  day : FieldStyle;
  year : FieldStyle;
  hour : FieldStyle;
  minute : FieldStyle;
  second : FieldStyle
}.

Definition DATE_OPTIONS : DateTimeFormatOptions :=
  {| month := two_digit;
     day := two_digit;
     year := numeric;
     hour := two_digit;
     minute := two_digit;
     second := two_digit |}.

Record LoggingLevels : Type := {
  levels : list (string * nat);
  colors : list (string * string)
}.

Definition LOGGING_LEVELS : LoggingLevels :=
  {| levels := [ ("exception", 0); ("error", 1); ("warn", 2); ("info", 3);
                 ("http", 4); ("trace", 5); ("debug", 6) ];
     colors := [ ("exception", "red bold"); ("error", "red"); ("warn", "yellow");
                 ("info", "green"); ("http", "magenta"); ("trace", "cyan");
                 ("debug", "blue") ] |}.

(** The severity names as a type: the union type of [logTracelevel] in
    [index.d.ts]. *)
Inductive Severity : Type :=
| Exception
| Error
| Warn
| Info
| Http
| Trace
| Debug.

Definition severity_name (s : Severity) : string :=
  match s with
  | Exception => "exception"
  | Error => "error"
  | Warn => "warn"
  | Info => "info"
  | Http => "http"
  | Trace => "trace"
  | Debug => "debug"
  end.

Definition all_severities : list Severity :=
  [Exception; Error; Warn; Info; Http; Trace; Debug].

(** Property lookup [table[name]]; [None] is [undefined]. *)
Fixpoint property {A : Type} (table : list (string * A)) (name : string) : option A :=
  match table with
  | [] => None
  | (k, v) :: rest => if String.eqb k name then Some v else property rest name
  end.

(** [LOGGING_LEVELS.levels[name]]. *)
Definition rank (name : string) : option nat := property (levels LOGGING_LEVELS) name.

(** ** The clock and the platform's date rendering *)

(** What [new Date(Date.now())] holds, in the local time zone. *)
Record Instant : Type := {
  FullYear : nat;
  MonthNumber : nat;
  DayOfMonth : nat;
  Hours : nat;
  Minutes : nat;
  Seconds : nat
}.

Module Intl.

Definition digit (n : nat) : ascii := ascii_of_nat (48 + n mod 10).

Definition pad2 (n : nat) : string :=
  String (digit (n / 10)) (String (digit n) EmptyString).

Definition pad4 (n : nat) : string :=
  String (digit (n / 1000)) (String (digit (n / 100)) (pad2 n)).

Definition number (n : nat) : string := NilZero.string_of_uint (Nat.to_uint n).

Definition field (style : FieldStyle) (n : nat) : string :=
  match style with
  | two_digit => pad2 n
  | numeric => number n
  end.

(** Modelled from the spec: [Date.prototype.toLocaleString(locale, options)]
    is the platform's, not the repository's.  Section 4.2 of the specification
    gives its output: ['de-DE'] renders [DD.MM.YYYY, HH:MM:SS] and ['en-US']
    renders [MM/DD/YYYY, HH:MM:SS], each field in the style the options ask
    for. *)
Definition toLocaleString (locale : Locale) (options : DateTimeFormatOptions)
    (t : Instant) : string :=
  let d := field (day options) (DayOfMonth t) in
  let m := field (month options) (MonthNumber t) in
  let y := field (year options) (FullYear t) in
  let clock := field (hour options) (Hours t) ++ ":" ++
               field (minute options) (Minutes t) ++ ":" ++
               field (second options) (Seconds t) in
  match locale with
  | de_DE => d ++ "." ++ m ++ "." ++ y ++ ", " ++ clock
  | en_US => m ++ "/" ++ d ++ "/" ++ y ++ ", " ++ clock
  end.

(** The part of that rendering in front of the comma. *)
Definition dateOnly (locale : Locale) (options : DateTimeFormatOptions)
    (t : Instant) : string :=
  let d := field (day options) (DayOfMonth t) in
  let m := field (month options) (MonthNumber t) in
  let y := field (year options) (FullYear t) in
  match locale with
  | de_DE => d ++ "." ++ m ++ "." ++ y
  | en_US => m ++ "/" ++ d ++ "/" ++ y
  end.

(** The time of day in it. *)
Definition timeOnly (options : DateTimeFormatOptions) (t : Instant) : string :=
  field (hour options) (Hours t) ++ ":" ++
  field (minute options) (Minutes t) ++ ":" ++
  field (second options) (Seconds t).

End Intl.

(** ** Module-level helpers of [index.js] *)

(** [formatDate(locale = 'de-DE')]; [now] is what [Date.now()] returns at the
    call, an omitted argument is [None]. *)
Definition formatDate (now : Instant) (locale : option Locale) : string :=
  Intl.toLocaleString (default de_DE locale) DATE_OPTIONS now.

(** The winston [info] object as [createLogString] reads it; [obj] is [None]
    when the property is absent. *)
Record LogInfo : Type := {
  level : string;
  message : string;
  obj : option JsValue
}.

Definition createLogString (now : Instant) (info : LogInfo) : JsResult string :=
  let logLevel := padStart 9 (toUpperCase (level info)) in
  let timestamp := formatDate now None in
  let message := timestamp ++ " | " ++ logLevel ++ " | " ++ message info in
  match obj info with
  | Some o =>
      if truthy o
      then bind (JSON_stringify o) (fun text => Ok (message ++ " | " ++ template text))
      else Ok (message ++ " |")
  | None => Ok (message ++ " |")
  end.

(** ** Characters *)

(** The line feed. *)
Definition LF : ascii := ascii_of_nat 10.

(** The character [c] does not occur in [s]. *)
Fixpoint lacks (c : ascii) (s : string) : bool :=
  match s with
  | EmptyString => true
  | String x r => negb (Ascii.eqb x c) && lacks c r
  end.

(** ** The wrapped logging engine *)

(** The engine is winston 3 with its companions logform, winston-transport
    and winston-daily-rotate-file.  The module follows what the engine does
    with the calls the class makes.  The engine's own diagnostics on the
    standard error stream (an unknown level, a write without transports) are
    not part of it. *)
Module Engine.

(** *** Colours *)

Definition ESC : ascii := ascii_of_nat 27.
Definition CR : ascii := ascii_of_nat 13.

(** The escape sequence [ESC [ n m]. *)
Definition escape (n : nat) : string := String ESC ("[" ++ Intl.number n ++ "m").

(** The text styles and the foreground colours of the colour library, each
    with the numbers of its opening and closing sequence; the colours of
    [LOGGING_LEVELS] name no other. *)
Definition ansiStyles : list (string * (nat * nat)) :=
  [ ("reset", (0, 0)); ("bold", (1, 22)); ("dim", (2, 22)); ("italic", (3, 23));
    ("underline", (4, 24)); ("inverse", (7, 27)); ("hidden", (8, 28));
    ("strikethrough", (9, 29)); ("black", (30, 39)); ("red", (31, 39));
    ("green", (32, 39)); ("yellow", (33, 39)); ("blue", (34, 39));
    ("magenta", (35, 39)); ("cyan", (36, 39)); ("white", (37, 39));
    ("gray", (90, 39)); ("grey", (90, 39)) ].

(** [s.replace(/pat/g, rep)] for a literal pattern; [skip] counts the
    characters of a match that are still to be dropped. *)
Fixpoint replaceAll_from (pat rep : string) (skip : nat) (s : string) : string :=
  match s with
  | EmptyString => EmptyString
  | String c r =>
      match skip with
      | S k => replaceAll_from pat rep k r
      | O =>
          if String.prefix pat s
          then rep ++ replaceAll_from pat rep (String.length pat - 1) r
          else String c (replaceAll_from pat rep 0 r)
      end
  end.

Definition replaceAll (pat rep s : string) : string := replaceAll_from pat rep 0 s.

Definition is_line_break (c : ascii) : bool := Ascii.eqb c LF || Ascii.eqb c CR.

(** [s.replace(/[\r\n]+/g, run => close + run + open)]; [inside] tells that
    the characters just read belong to a run of line breaks. *)
Fixpoint around_line_breaks (close open : string) (inside : bool) (s : string) : string :=
  match s with
  | EmptyString => if inside then open else EmptyString
  | String c r =>
      if is_line_break c
      then (if inside then EmptyString else close)
           ++ String c (around_line_breaks close open true r)
      else (if inside then open else EmptyString)
           ++ String c (around_line_breaks close open false r)
  end.

(** One style applied to a text, as the colour library does it with colours
    switched on (logform switches them on): the empty text stays empty;
    otherwise the text is put between the two sequences, a closing sequence
    inside it becomes an opening one, and when the text has a line feed the
    sequences are repeated around every run of line breaks. *)
Definition style (opening closing : nat) (str : string) : string :=
  if String.eqb str EmptyString then EmptyString
  else
    let painted :=
      escape opening ++ replaceAll (escape closing) (escape opening) str ++ escape closing in
    if lacks LF str then painted
    else around_line_breaks (escape closing) (escape opening) false painted.

(** [colors[name](str)]; a name that is no style is not a function. *)
Definition applyStyle (name : string) (str : string) : JsResult string :=
  match property ansiStyles name with
  | Some (opening, closing) => Ok (style opening closing str)
  | None => Throw (TypeError "colors[style] is not a function")
  end.

(** [addColors(clrs)]: the colours by level, as far as the class registers
    them; an entry that names several styles, separated by a blank, becomes
    their list. *)
Definition addColors (clrs : list (string * string)) : list (string * list string) :=
  map (fun entry => (fst entry, split " " (snd entry))) clrs.

(** [Colorizer.colorize(lookup, level, message)]: the styles registered for
    [lookup] are applied to [message] one after the other. *)
Definition Colorizer_colorize (allColors : list (string * list string))
    (lookup message : string) : JsResult string :=
  match property allColors lookup with
  | Some names => fold_left (fun text name => bind text (applyStyle name)) names (Ok message)
  | None => Throw (TypeError "colors[style] is not a function")
  end.

(** *** Formats *)

(** The logform formats the class uses: [printf(template)], the template
    reading the clock when it runs, [colorize({ all })] and [combine(...)]. *)
Inductive Format : Type :=
| printf (template : Instant -> LogInfo -> JsResult string)
| colorize (all : bool)
| combine (formats : list Format).

(** The [info] object on its way through the engine: its own properties,
    and the two properties [info[LEVEL]] and [info[MESSAGE]] the engine
    keeps under symbols; [entry_MESSAGE] is [None] until a format sets it. *)
Record Entry : Type := {
  entry_info : LogInfo;
  entry_LEVEL : string;
  entry_MESSAGE : option string
}.

(** [format.transform(info)]: [printf] stores the text of its template in
    [info[MESSAGE]]; [colorize] colours [info.level], and with [all] also
    [info[MESSAGE]] and [info.message], by the colours of [info[LEVEL]];
    [combine] applies its formats in turn. *)
Fixpoint transform (allColors : list (string * list string)) (f : Format)
    (now : Instant) (e : Entry) : JsResult Entry :=
  match f with
  | printf template =>
      bind (template now (entry_info e)) (fun text =>
      Ok {| entry_info := entry_info e;
            entry_LEVEL := entry_LEVEL e;
            entry_MESSAGE := Some text |})
  | colorize all =>
      bind (match entry_MESSAGE e with
            | Some text =>
                if all
                then bind (Colorizer_colorize allColors (entry_LEVEL e) text)
                          (fun painted => Ok (Some painted))
                else Ok (Some text)
            | None => Ok None
            end) (fun text =>
      bind (Colorizer_colorize allColors (entry_LEVEL e) (level (entry_info e)))
           (fun painted_level =>
      bind (if all
            then Colorizer_colorize allColors (entry_LEVEL e) (message (entry_info e))
            else Ok (message (entry_info e))) (fun painted_message =>
      Ok {| entry_info := {| level := painted_level;
                             message := painted_message;
                             obj := obj (entry_info e) |};
            entry_LEVEL := entry_LEVEL e;
            entry_MESSAGE := text |})))
  | combine formats =>
      (fix chain (l : list Format) (e : Entry) : JsResult Entry :=
         match l with
         | [] => Ok e
         | g :: rest => bind (transform allColors g now e) (chain rest)
         end) formats e
  end.

(** *** Transports and loggers *)

(** The transports [_createWinstonLogger] constructs, with the options it
    passes; [path.join(logPath, name)] is kept as its two arguments. *)
Inductive Transport : Type :=
| DailyRotateFile (dirname filename datePattern maxSize maxFiles : string) (format : Format)
| File (dirname filename : string) (format : Format)
| Console (format : Format).

Definition transport_format (t : Transport) : Format :=
  match t with
  | DailyRotateFile _ _ _ _ _ format => format
  | File _ _ format => format
  | Console format => format
  end.

(** The options object handed to [winston.createLogger], and with it the
    registry of colours, which is the engine's and process-wide: every
    logger of the class registers the same table with [winston.addColors]. *)
Record Logger : Type := {
  lg_levels : list (string * nat);
  lg_level : string;
  lg_transports : list Transport;
  lg_format : Format;
  lg_colors : list (string * list string)
}.

(** Where a line ends up. *)
Inductive Destination : Type :=
| ConsoleStream
| LogFile (dirname filename : string).

(** Modelled from the spec: the rotating sink's own date, which section 4.4
    describes as substituted per day in the form YYYY-MM-DD (the [datePattern]
    the source passes). *)
Definition rotationDate (today : Instant) : string :=
  Intl.pad4 (FullYear today) ++ "-" ++ Intl.pad2 (MonthNumber today) ++ "-" ++
  Intl.pad2 (DayOfMonth today).

(** Modelled from the spec: the file a rotating sink writes on a given day is
    its [filename] option with the placeholder [%DATE%] replaced by that
    day's rotation date (section 4.4); a fixed-name sink writes its
    [filename]; the sink code itself is the engine's. *)
Definition destination (today : Instant) (t : Transport) : Destination :=
  match t with
  | DailyRotateFile dirname filename _ _ _ _ =>
      LogFile dirname (replaceAll "%DATE%" (rotationDate today) filename)
  | File dirname filename _ => LogFile dirname filename
  | Console _ => ConsoleStream
  end.

(** The level filter, which every transport applies for itself with the
    level of its logger, none of the class's transports having one of its
    own: [!level || levels[level] >= levels[info[LEVEL]]].  A name without
    a rank is [undefined], and no comparison with it holds. *)
Definition isEnabled (table : list (string * nat)) (level threshold : string) : bool :=
  if String.eqb threshold EmptyString then true
  else match property table threshold, property table level with
       | Some t, Some l => (l <=? t)%nat
       | _, _ => false
       end.

(** [/%[scdjifoO%]/]: the message holds a token of [util.format]. *)
Definition is_token_letter (c : ascii) : bool :=
  existsb (Ascii.eqb c) (list_ascii_of_string "scdjifoO%").

Fixpoint has_token (s : string) : bool :=
  match s with
  | EmptyString => false
  | String c r =>
      (Ascii.eqb c "%" &&
       match r with
       | String d _ => is_token_letter d
       | EmptyString => false
       end)
      || has_token r
  end.

(** What the transports do with an entry the logger's format has left:
    each transport that lets the level pass runs its own format on a copy
    and writes [info[MESSAGE]] to its destination, the line terminator being
    the sink's. *)
Fixpoint deliver (lg : Logger) (now : Instant) (e : Entry) (transports : list Transport)
    : JsResult (list (Destination * string)) :=
  match transports with
  | [] => Ok []
  | t :: rest =>
      bind (if isEnabled (lg_levels lg) (entry_LEVEL e) (lg_level lg)
            then bind (transform (lg_colors lg) (transport_format t) now e) (fun e' =>
                 Ok [ (destination now t, template (entry_MESSAGE e')) ])
            else Ok []) (fun first =>
      bind (deliver lg now e rest) (fun others =>
      Ok (first ++ others)%list))
  end.

(** [logger.log(level, message)] and [logger.log(level, message, meta)],
    [meta] being the object [{ obj }] given by its one property.  The
    properties of [meta] become properties of the entry unless the message
    holds a token.  The entry goes through the logger's format first, at
    whatever level, and then to the transports; [now] is the clock the
    formats read meanwhile.  The result lists the writes; an exception of a
    format leaves the call. *)
Definition log (lg : Logger) (now : Instant) (level message : string)
    (meta : option JsValue) : JsResult (list (Destination * string)) :=
  let info :=
    match meta with
    | Some o =>
        if has_token message
        then {| level := level; message := message; obj := None |}
        else {| level := level; message := message; obj := Some o |}
    | None => {| level := level; message := message; obj := None |}
    end in
  bind (transform (lg_colors lg) (lg_format lg) now
          {| entry_info := info; entry_LEVEL := level; entry_MESSAGE := None |})
       (fun e => deliver lg now e (lg_transports lg)).

(** [logger.close()]: every transport is removed.  The method takes no
    argument: a callback handed to it is never called. *)
Definition close (lg : Logger) : Logger :=
  {| lg_levels := lg_levels lg;
     lg_level := lg_level lg;
     lg_transports := [];
     lg_format := lg_format lg;
     lg_colors := lg_colors lg |}.

End Engine.

(** ** The store *)

(** Configuration objects live in a heap and are named by their index, so
    that a snapshot and the logger's own configuration can be told apart;
    [written] is everything the sinks have received, oldest first. *)
Record World : Type := {
  heap : list LoggerConfig;
  written : list (Engine.Destination * string)
}.

Definition empty_world : World := {| heap := []; written := [] |}.

(** A new object: it gets the next free index. *)
Definition alloc (w : World) (c : LoggerConfig) : World * nat :=
  ({| heap := heap w ++ [c]; written := written w |}, length (heap w)).

(** An assignment [object.field = value] by the holder of a reference,
    given as the change [f] it makes to the object. *)
Definition mutate (w : World) (r : nat) (f : LoggerConfig -> LoggerConfig) : World :=
  {| heap := match heap w !! r with
             | Some c => <[r := f c]> (heap w)
             | None => heap w
             end;
     written := written w |}.

Definition write (w : World) (lines : list (Engine.Destination * string)) : World :=
  {| heap := heap w; written := written w ++ lines |}.

(** ** The file system *)

Module Node.

(** A directory, as the list of its segments under the root, outermost
    first; the empty list is the root. *)
Definition Directory : Type := list string.

(** [path.isAbsolute] on POSIX. *)
Definition isAbsolute (p : string) : bool :=
  match p with
  | String c _ => Ascii.eqb c "/"
  | EmptyString => false
  end.

(** One segment of a path applied to the directory reached so far, which is
    held innermost first: empty segments and ["."] stay, [".."] goes up (and
    stays at the root), a name goes down. *)
Definition enter (reached : list string) (segment : string) : list string :=
  if String.eqb segment "" || String.eqb segment "." then reached
  else if String.eqb segment ".." then tail reached
  else segment :: reached.

(** POSIX [path.resolve(p)] in the working directory [cwd]: the normalized
    absolute path, without trailing separator. *)
Definition resolve (cwd : Directory) (p : string) : Directory :=
  rev (fold_left enter (split "/" p) (if isAbsolute p then [] else rev cwd)).

(** [path.dirname] of a resolved path: its parent, the root being its own. *)
Definition dirname (d : Directory) : Directory := removelast d.

(** The directories that exist. *)
Definition FileSystem : Type := list Directory.

Fixpoint same_directory (a b : Directory) : bool :=
  match a, b with
  | [], [] => true
  | x :: a', y :: b' => String.eqb x y && same_directory a' b'
  | _, _ => false
  end.

(** [fs.existsSync(d)]. *)
Definition existsSync (fs : FileSystem) (d : Directory) : bool :=
  existsb (same_directory d) fs.

(** A directory and the directories above it, the root first. *)
Fixpoint ancestors (d : Directory) : list Directory :=
  match d with
  | [] => [[]]
  | segment :: rest => [] :: map (cons segment) (ancestors rest)
  end.

(** [fs.mkdirSync(d, { recursive: true })]: the directory and the missing
    directories above it are created. *)
Definition mkdirSync_recursive (fs : FileSystem) (d : Directory) : FileSystem :=
  List.app fs (List.filter (fun a => negb (existsSync fs a)) (ancestors d)).

End Node.

(** ** The class [AppLogger] *)

Module AppLogger.

(** The fields of an instance; [config] is a reference into the heap. *)
Record t : Type := {
  config : nat;
  route : string;
  logger : Engine.Logger
}.

(** [_generateRoute(route)], reading [this.config] as [config]. *)
Definition _generateRoute (now : Instant) (config : LoggerConfig) (route : string) : string :=
  let dateString := formatDate now (Some (dateLocale config)) in
  let datePart := split_first "," dateString in
  let parts := split "." datePart in
  let day := parts !! 0 in
  let month := parts !! 1 in
  let year := parts !! 2 in
  let formattedDate := template year ++ template month ++ template day in
  route ++ "-" ++ formattedDate.

(** [_createWinstonLogger()], reading [this.config] and [this.route]. *)
Definition _createWinstonLogger (config : LoggerConfig) (route : string) : Engine.Logger :=
  let file_transport :=
    if fileRotation config
    then Engine.DailyRotateFile (logPath config) (route ++ "-%DATE%.log")
           "YYYY-MM-DD" (maxFileSize config) (maxFiles config)
           (Engine.printf createLogString)
    else Engine.File (logPath config) (route ++ ".log") (Engine.printf createLogString) in
  let transports :=
    file_transport ::
    (if String.eqb (consoleOutput config) "on"
     then [Engine.Console (Engine.combine [ Engine.printf createLogString;
                                            Engine.colorize true ])]
     else []) in
  {| Engine.lg_levels := levels LOGGING_LEVELS;
     Engine.lg_level := logTracelevel config;
     Engine.lg_transports := transports;
     Engine.lg_format := Engine.printf createLogString;
     Engine.lg_colors := Engine.addColors (colors LOGGING_LEVELS) |}.

(** [new AppLogger(route, config)] at the instant [now]. *)
Definition constructor (w : World) (now : Instant) (route : string)
    (config : PartialConfig) : World * t :=
  let cfg := spread DEFAULT_CONFIG config in
  let (w1, r) := alloc w cfg in
  let generated := _generateRoute now cfg route in
  (w1, {| config := r; route := generated; logger := _createWinstonLogger cfg generated |}).

(** [_ensureLogDirectory()], reading [this.config]; the constructor ends
    with this call, whose effect on the file system is kept apart from
    [constructor].  [cwd] is the working directory of the process. *)
Definition _ensureLogDirectory (fs : Node.FileSystem) (cwd : Node.Directory)
    (config : LoggerConfig) : Node.FileSystem :=
  let logDir := Node.dirname (Node.resolve cwd (logPath config)) in
  if negb (Node.existsSync fs logDir)
  then Node.mkdirSync_recursive fs logDir
  else fs.

(** [genLog(level, message, obj = null)]: an omitted argument is
    [JsUndefined], which the default parameter turns into [null]. *)
Definition genLog (w : World) (now : Instant) (self : t) (level message : string)
    (obj : JsValue) : World * Completion :=
  let obj := match obj with JsUndefined => JsNull | v => v end in
  let outcome :=
    if truthy obj
    then Engine.log (logger self) now level message (Some obj)
    else Engine.log (logger self) now level message None in
  match outcome with
  | Ok lines => (write w lines, Resolved)
  | Throw e => (w, Rejected e)
  end.

Definition info (w : World) (now : Instant) (self : t) (message : string) (obj : JsValue) :=
  genLog w now self "info" message obj.

Definition trace (w : World) (now : Instant) (self : t) (message : string) (obj : JsValue) :=
  genLog w now self "trace" message obj.

Definition debug (w : World) (now : Instant) (self : t) (message : string) (obj : JsValue) :=
  genLog w now self "debug" message obj.

Definition error (w : World) (now : Instant) (self : t) (message : string) (obj : JsValue) :=
  genLog w now self "error" message obj.

Definition exception (w : World) (now : Instant) (self : t) (message : string) (obj : JsValue) :=
  genLog w now self "exception" message obj.

Definition warn (w : World) (now : Instant) (self : t) (message : string) (obj : JsValue) :=
  genLog w now self "warn" message obj.

Definition http (w : World) (now : Instant) (self : t) (message : string) (obj : JsValue) :=
  genLog w now self "http" message obj.

(** The per-level method of a severity. *)
Definition method (s : Severity) :=
  match s with
  | Exception => exception
  | Error => error
  | Warn => warn
  | Info => info
  | Http => http
  | Trace => trace
  | Debug => debug
  end.

(** [close()]: the engine's logger is closed and the instance keeps its
    fields.  The promise is resolved by the callback handed to
    [this.logger.close], and the engine never calls it. *)
Definition close (self : t) : t * Completion :=
  ({| config := config self; route := route self; logger := Engine.close (logger self) |},
   Pending).

(** [getConfig()]: a new object with the fields of [this.config]. *)
Definition getConfig (w : World) (self : t) : option (World * nat) :=
  c ← heap w !! config self;
  Some (alloc w c).

(** [updateConfig(newConfig)]. *)
Definition updateConfig (w : World) (self : t) (newConfig : PartialConfig)
    : option (World * t) :=
  c ← heap w !! config self;
  let cfg := spread c newConfig in
  let (w1, r) := alloc w cfg in
  Some (w1, {| config := r; route := route self;
               logger := _createWinstonLogger cfg (route self) |}).

End AppLogger.

(** ** Sequences of calls on one instance *)

(** A call a client makes on a logger it holds. *)
Inductive Call : Type :=
| CallGenLog (level message : string) (obj : JsValue)
| CallLevel (s : Severity) (message : string) (obj : JsValue)
| CallClose
| CallGetConfig
| CallUpdateConfig (newConfig : PartialConfig).

(** One call at the wall-clock instant [now]; the value a call returns is
    dropped, the store and the instance are kept. *)
Definition call (w : World) (self : AppLogger.t) (now : Instant) (c : Call)
    : option (World * AppLogger.t) :=
  match c with
  | CallGenLog level message obj =>
      Some (fst (AppLogger.genLog w now self level message obj), self)
  | CallLevel s message obj =>
      Some (fst (AppLogger.method s w now self message obj), self)
  | CallClose => Some (w, fst (AppLogger.close self))
  | CallGetConfig =>
      r ← AppLogger.getConfig w self;
      Some (fst r, self)
  | CallUpdateConfig newConfig => AppLogger.updateConfig w self newConfig
  end.

Fixpoint calls (w : World) (self : AppLogger.t) (script : list (Instant * Call))
    : option (World * AppLogger.t) :=
  match script with
  | [] => Some (w, self)
  | (now, c) :: rest =>
      match call w self now c with
      | Some (w1, self1) => calls w1 self1 rest
      | None => None
      end
  end.

(** A transport with the format the class gives its kind. *)
Definition class_transport (t : Engine.Transport) : Prop :=
  match t with
  | Engine.DailyRotateFile _ _ _ _ _ format => format = Engine.printf createLogString
  | Engine.File _ _ format => format = Engine.printf createLogString
  | Engine.Console format =>
      format = Engine.combine [ Engine.printf createLogString; Engine.colorize true ]
  end.

(** An engine logger as [_createWinstonLogger] builds it: the level table,
    the format and the colours of the class, and transports of its kinds. *)
Definition class_logger (lg : Engine.Logger) : Prop :=
  Engine.lg_levels lg = levels LOGGING_LEVELS /\
  Engine.lg_format lg = Engine.printf createLogString /\
  Engine.lg_colors lg = Engine.addColors (colors LOGGING_LEVELS) /\
  Forall class_transport (Engine.lg_transports lg).

(** What every instance built by the class satisfies: its configuration is
    an object of the store, and its engine logger is one of the class. *)
Definition well_formed (w : World) (self : AppLogger.t) : Prop :=
  is_Some (heap w !! AppLogger.config self) /\
  class_logger (AppLogger.logger self).

(** The writes that happened between two states of the store. *)
Definition emitted (before after : World) : list (Engine.Destination * string) :=
  drop (length (written before)) (written after).

(** A call failed: its promise was rejected. *)
Definition failed (c : Completion) : Prop := exists e, c = Rejected e.

(** ** The specification's own wording, for comparison *)

Module Spec.

(** Section 3: the ranks, 0 for the most severe level. *)
Definition rank (s : Severity) : nat :=
  match s with
  | Exception => 0
  | Error => 1
  | Warn => 2
  | Info => 3
  | Http => 4
  | Trace => 5
  | Debug => 6
  end.

(** Section 4.3, step 1: the name in capitals in a 9-character field, flush
    right. *)
Definition label (s : Severity) : string :=
  match s with
  | Exception => "EXCEPTION"
  | Error => "    ERROR"
  | Warn => "     WARN"
  | Info => "     INFO"
  | Http => "     HTTP"
  | Trace => "    TRACE"
  | Debug => "    DEBUG"
  end.

(** Section 4.3, step 4: a payload is present when it is neither omitted
    nor null. *)
Definition present (payload : JsValue) : bool :=
  match payload with
  | JsUndefined | JsNull => false
  | _ => true
  end.

(** Section 4.3: [render], given the timestamp of step 2. *)
Definition render (timestamp : string) (s : Severity) (message : string)
    (payload : JsValue) : JsResult string :=
  let base := timestamp ++ " | " ++ label s ++ " | " ++ message in
  if present payload
  then bind (JSON_stringify payload) (fun text => Ok (base ++ " | " ++ template text))
  else Ok (base ++ " |").

(** Section 4.4: the stem [YYYYMMDD] of a date. *)
Definition stem (t : Instant) : string :=
  Intl.pad4 (FullYear t) ++ Intl.pad2 (MonthNumber t) ++ Intl.pad2 (DayOfMonth t).

(** Section 4.4: [deriveRoute]. *)
Definition deriveRoute (logicalName : string) (now : Instant) (locale : Locale) : string :=
  logicalName ++ "-" ++ stem now.

End Spec.

(** ** The file-name classifier of [test/simple-filename-test.js] *)

Module FilenameTest.

(** A regular-expression atom: a literal character or [\d]. *)
Inductive Atom : Type :=
| Lit (c : ascii)
| AnyDigit.

Definition is_digit (c : ascii) : bool :=
  let n := nat_of_ascii c in (48 <=? n)%nat && (n <=? 57)%nat.

Definition atom_matches (a : Atom) (c : ascii) : bool :=
  match a with
  | Lit x => Ascii.eqb x c
  | AnyDigit => is_digit c
  end.

Fixpoint matches_exactly (p : list Atom) (s : string) : bool :=
  match p, s with
  | [], EmptyString => true
  | a :: p', String c r => atom_matches a c && matches_exactly p' r
  | _, _ => false
  end.

(** [/.*p$/.test(s)]: some suffix of [s] is matched by [p]. *)
Fixpoint ends_with (p : list Atom) (s : string) : bool :=
  matches_exactly p s ||
  match s with
  | EmptyString => false
  | String _ r => ends_with p r
  end.

Definition digits (n : nat) : list Atom := repeat AnyDigit n.

Definition lits (s : string) : list Atom := map Lit (list_ascii_of_string s).

(** [/.*-\d{8}-\d{4}-\d{2}-\d{2}\.log$/], the test's "DOUBLE DATE DETECTED". *)
Definition doubleDate (file : string) : bool :=
  ends_with (lits "-" ++ digits 8 ++ lits "-" ++ digits 4 ++ lits "-" ++ digits 2 ++
             lits "-" ++ digits 2 ++ lits ".log") file.

(** [/.*-\d{4}-\d{2}-\d{2}\.log$/], the test's "Single date format" (tried
    only after [doubleDate]). *)
Definition singleDate (file : string) : bool :=
  ends_with (lits "-" ++ digits 4 ++ lits "-" ++ digits 2 ++ lits "-" ++ digits 2 ++
             lits ".log") file.

End FilenameTest.

(** ** Sample data *)

Definition may_26_afternoon : Instant :=
  {| FullYear := 2025; MonthNumber := 5; DayOfMonth := 26;
     Hours := 14; Minutes := 30; Seconds := 15 |}.

Definition may_26_last_second : Instant :=
  {| FullYear := 2025; MonthNumber := 5; DayOfMonth := 26;
     Hours := 23; Minutes := 59; Seconds := 59 |}.

Definition may_26_first_second : Instant :=
  {| FullYear := 2025; MonthNumber := 5; DayOfMonth := 26;
     Hours := 0; Minutes := 0; Seconds := 1 |}.

Definition may_27_morning : Instant :=
  {| FullYear := 2025; MonthNumber := 5; DayOfMonth := 27;
     Hours := 8; Minutes := 0; Seconds := 0 |}.

(** [{ logTracelevel: name }]. *)
Definition threshold_only (name : string) : PartialConfig :=
  {| logTracelevel_opt := Some name; consoleOutput_opt := None; logPath_opt := None;
     dateLocale_opt := None; fileRotation_opt := None; maxFileSize_opt := None;
     maxFiles_opt := None |}.


(** [{ dateLocale: 'en-US' }], as in the second case of the test suite. *)
Definition american : PartialConfig :=
  {| logTracelevel_opt := None; consoleOutput_opt := None; logPath_opt := None;
     dateLocale_opt := Some en_US; fileRotation_opt := None; maxFileSize_opt := None;
     maxFiles_opt := None |}.

(** [{ fileRotation: true, logPath: './test-logs-simple/' }], the rotating
    logger of [test/simple-filename-test.js]. *)
Definition rotating : PartialConfig :=
  {| logTracelevel_opt := None; consoleOutput_opt := None;
     logPath_opt := Some "./test-logs-simple/";
     dateLocale_opt := None; fileRotation_opt := Some true; maxFileSize_opt := None;
     maxFiles_opt := None |}.

(** [{ logPath: './archive/' }]. *)
Definition moved : PartialConfig :=
  {| logTracelevel_opt := None; consoleOutput_opt := None;
     logPath_opt := Some "./archive/";
     dateLocale_opt := None; fileRotation_opt := None; maxFileSize_opt := None;
     maxFiles_opt := None |}.

(** The default logger ["svc"], created on the afternoon of 26 May 2025 in
    an empty store. *)
Definition svc_world : World :=
  fst (AppLogger.constructor empty_world may_26_afternoon "svc" no_options).

Definition svc_logger : AppLogger.t :=
  snd (AppLogger.constructor empty_world may_26_afternoon "svc" no_options).

Definition bigint_error : JsError := TypeError "Do not know how to serialize a BigInt".

(** ** Predicates used in the proofs *)

(** Every character of [s] is a decimal digit. *)
Fixpoint all_digits (s : string) : bool :=
  match s with
  | EmptyString => true
  | String x r => FilenameTest.is_digit x && all_digits r
  end.

(** Two instants of the same day. *)
Definition same_day (t t' : Instant) : Prop :=
  FullYear t = FullYear t' /\ MonthNumber t = MonthNumber t' /\
  DayOfMonth t = DayOfMonth t'.

(** A year that [year: 'numeric'] renders with four digits, 1000 to 9999. *)
Definition four_digit_year (t : Instant) : Prop :=
  10 * 100 <= FullYear t < 100 * 100.

(** A BigInt occurs somewhere in the value. *)
Fixpoint has_bigint (v : JsValue) : bool :=
  match v with
  | JsBigInt _ => true
  | JsArray items => existsb has_bigint items
  | JsObject props => existsb (fun kv => has_bigint (snd kv)) props
  | _ => false
  end.

(** The configuration a logger ends up with when it starts from [c] and the
    calls of [script] are made: each [updateConfig] merges its argument, no
    other call counts. *)
Fixpoint merged (c : LoggerConfig) (script : list (Instant * Call)) : LoggerConfig :=
  match script with
  | [] => c
  | (_, CallUpdateConfig newConfig) :: rest => merged (spread c newConfig) rest
  | _ :: rest => merged c rest
  end.


(** [{ consoleOutput: 'ON' }]: the switch in capitals. *)
Definition console_ON : PartialConfig :=
  {| logTracelevel_opt := None; consoleOutput_opt := Some "ON"; logPath_opt := None;
     dateLocale_opt := None; fileRotation_opt := None; maxFileSize_opt := None;
     maxFiles_opt := None |}.

(** The elements of an array as [SerializeJSONProperty] serializes them. *)
Definition serialize_elements : list JsValue -> JsResult (list string) :=
  fix elements (l : list JsValue) : JsResult (list string) :=
    match l with
    | [] => Ok []
    | x :: r =>
        bind (SerializeJSONProperty x) (fun t =>
        bind (elements r) (fun ts =>
        Ok (match t with Some s => s | None => "null" end :: ts)))
    end.

(** The properties of an object as [SerializeJSONProperty] serializes them. *)
Definition serialize_members : list (string * JsValue) -> JsResult (list string) :=
  fix members (l : list (string * JsValue)) : JsResult (list string) :=
    match l with
    | [] => Ok []
    | (k, x) :: r =>
        bind (SerializeJSONProperty x) (fun t =>
        bind (members r) (fun ts =>
        Ok (match t with
            | Some s => (QuoteJSONString k ++ ":" ++ s) :: ts
            | None => ts
            end)))
    end.

(** The line of a record without payload. *)
Definition plain_line (now : Instant) (level message : string) : string :=
  formatDate now None ++ " | " ++ padStart 9 (toUpperCase level) ++ " | " ++ message ++ " |".

(** The [info] object the engine builds for [genLog(level, message, obj)]:
    the payload is a property of it when it is truthy and the message holds
    no token. *)
Definition record_of (level message : string) (o : JsValue) : LogInfo :=
  {| level := level; message := message;
     obj := if truthy o && negb (Engine.has_token message) then Some o else None |}.

(** A line in the colours of its level: green for [info], red and then bold
    for [exception], and so on. *)
Definition paint (l : Severity) (line : string) : string :=
  match l with
  | Exception => Engine.style 1 22 (Engine.style 31 39 line)
  | Error => Engine.style 31 39 line
  | Warn => Engine.style 33 39 line
  | Info => Engine.style 32 39 line
  | Http => Engine.style 35 39 line
  | Trace => Engine.style 36 39 line
  | Debug => Engine.style 34 39 line
  end.

(** The escape sequences a painted line begins with. *)
Definition opening (l : Severity) : string :=
  match l with
  | Exception => Engine.escape 1 ++ Engine.escape 31
  | Error => Engine.escape 31
  | Warn => Engine.escape 33
  | Info => Engine.escape 32
  | Http => Engine.escape 35
  | Trace => Engine.escape 36
  | Debug => Engine.escape 34
  end.

(** What a transport of the class writes for the rendered [line]: the
    console the painted line, a file the line itself. *)
Definition sink_line (l : Severity) (t : Engine.Transport) (line : string) : string :=
  match t with
  | Engine.Console _ => paint l line
  | _ => line
  end.

(** The writes of a record of level [l] rendered as [line]: one per
    transport when the threshold admits the level, none otherwise. *)
Definition deliveries (now : Instant) (lg : Engine.Logger) (l : Severity) (line : string)
    : list (Engine.Destination * string) :=
  if Engine.isEnabled (Engine.lg_levels lg) (severity_name l) (Engine.lg_level lg)
  then map (fun t => (Engine.destination now t, sink_line l t line)) (Engine.lg_transports lg)
  else [].

(** * Properties *)

(** ** Strings *)

Lemma append_assoc (a b c : string) : (a ++ b) ++ c = a ++ b ++ c.
Proof. induction a as [ | x a IH ]; simpl; [ reflexivity | now rewrite IH ]. Qed.

Lemma length_append (a b : string) :
  String.length (a ++ b) = String.length a + String.length b.
Proof. induction a as [ | x a IH ]; simpl; [ reflexivity | now rewrite IH ]. Qed.

Lemma Ok_inj {A : Type} (a b : A) : Ok a = Ok b -> a = b.
Proof. congruence. Qed.

(** ** The store *)

Lemma alloc_fresh (w : World) (c : LoggerConfig) :
  heap (fst (alloc w c)) !! snd (alloc w c) = Some c.
Proof.
  unfold alloc; simpl.
  rewrite lookup_app_r by lia.
  now rewrite Nat.sub_diag.
Qed.

Lemma alloc_keeps (w : World) (c : LoggerConfig) (r : nat) :
  is_Some (heap w !! r) -> heap (fst (alloc w c)) !! r = heap w !! r.
Proof.
  intros Hr. unfold alloc; simpl.
  apply lookup_app_l. now apply lookup_lt_is_Some.
Qed.

Lemma alloc_distinct (w : World) (c : LoggerConfig) (r : nat) :
  is_Some (heap w !! r) -> snd (alloc w c) <> r.
Proof.
  intros Hr. apply lookup_lt_is_Some in Hr. unfold alloc; simpl. lia.
Qed.

Lemma alloc_written (w : World) (c : LoggerConfig) :
  written (fst (alloc w c)) = written w.
Proof. reflexivity. Qed.

Lemma mutate_other (w : World) (r r' : nat) (f : LoggerConfig -> LoggerConfig) :
  r <> r' -> heap (mutate w r f) !! r' = heap w !! r'.
Proof.
  intros Hne. unfold mutate; simpl.
  destruct (heap w !! r); [ | reflexivity ].
  now apply list_lookup_insert_ne.
Qed.

Lemma mutate_same (w : World) (r : nat) (f : LoggerConfig -> LoggerConfig) (c : LoggerConfig) :
  heap w !! r = Some c -> heap (mutate w r f) !! r = Some (f c).
Proof.
  intros Hc. unfold mutate; simpl. rewrite Hc.
  apply list_lookup_insert_eq. apply lookup_lt_is_Some. now exists c.
Qed.

Lemma emitted_write (w : World) (lines : list (Engine.Destination * string)) :
  emitted w (write w lines) = lines.
Proof.
  unfold emitted, write; simpl. now rewrite drop_app_length.
Qed.

Lemma emitted_nothing (w : World) : emitted w w = [].
Proof. unfold emitted. apply drop_all. Qed.

(** ** Instances stay well formed *)

Lemma createWinstonLogger_levels (config : LoggerConfig) (route : string) :
  Engine.lg_levels (AppLogger._createWinstonLogger config route) = levels LOGGING_LEVELS.
Proof. reflexivity. Qed.

Lemma createWinstonLogger_format (config : LoggerConfig) (route : string) :
  Engine.lg_format (AppLogger._createWinstonLogger config route)
  = Engine.printf createLogString.
Proof. reflexivity. Qed.

Lemma createWinstonLogger_level (config : LoggerConfig) (route : string) :
  Engine.lg_level (AppLogger._createWinstonLogger config route) = logTracelevel config.
Proof. reflexivity. Qed.

Lemma createWinstonLogger_has_sink (config : LoggerConfig) (route : string) :
  Engine.lg_transports (AppLogger._createWinstonLogger config route) <> [].
Proof. unfold AppLogger._createWinstonLogger; simpl. discriminate. Qed.

Lemma createWinstonLogger_class (config : LoggerConfig) (route : string) :
  class_logger (AppLogger._createWinstonLogger config route).
Proof.
  repeat split.
  unfold AppLogger._createWinstonLogger; cbn [Engine.lg_transports].
  constructor.
  - destruct (fileRotation config); reflexivity.
  - destruct (String.eqb _ _); repeat constructor.
Qed.

Lemma close_class (lg : Engine.Logger) : class_logger lg -> class_logger (Engine.close lg).
Proof. intros (Hlev & Hfmt & Hcol & _). repeat split; try assumption. constructor. Qed.

Lemma constructor_well_formed (w : World) (now : Instant) (route : string)
    (config : PartialConfig) :
  well_formed (fst (AppLogger.constructor w now route config))
              (snd (AppLogger.constructor w now route config)).
Proof.
  unfold AppLogger.constructor, well_formed; simpl.
  split; [ | apply createWinstonLogger_class ].
  exists (spread DEFAULT_CONFIG config).
  apply (alloc_fresh w).
Qed.

Lemma constructor_config (w : World) (now : Instant) (route : string)
    (config : PartialConfig) :
  heap (fst (AppLogger.constructor w now route config))
    !! AppLogger.config (snd (AppLogger.constructor w now route config))
  = Some (spread DEFAULT_CONFIG config).
Proof. unfold AppLogger.constructor; simpl. apply (alloc_fresh w). Qed.

Lemma genLog_heap (w : World) (now : Instant) (self : AppLogger.t)
    (level message : string) (obj : JsValue) :
  heap (fst (AppLogger.genLog w now self level message obj)) = heap w.
Proof.
  unfold AppLogger.genLog. cbv zeta.
  match goal with
  | |- context [match ?x with Ok _ => _ | Throw _ => _ end] => destruct x
  end; reflexivity.
Qed.

Lemma method_genLog (s : Severity) (w : World) (now : Instant) (self : AppLogger.t)
    (message : string) (obj : JsValue) :
  AppLogger.method s w now self message obj
  = AppLogger.genLog w now self (severity_name s) message obj.
Proof. destruct s; reflexivity. Qed.

Lemma getConfig_total (w : World) (self : AppLogger.t) (c : LoggerConfig) :
  heap w !! AppLogger.config self = Some c ->
  AppLogger.getConfig w self = Some (alloc w c).
Proof. intros Hc. unfold AppLogger.getConfig. now rewrite Hc. Qed.

Lemma updateConfig_total (w : World) (self : AppLogger.t) (newConfig : PartialConfig)
    (c : LoggerConfig) :
  heap w !! AppLogger.config self = Some c ->
  AppLogger.updateConfig w self newConfig
  = Some (fst (alloc w (spread c newConfig)),
          {| AppLogger.config := snd (alloc w (spread c newConfig));
             AppLogger.route := AppLogger.route self;
             AppLogger.logger :=
               AppLogger._createWinstonLogger (spread c newConfig) (AppLogger.route self) |}).
Proof. intros Hc. unfold AppLogger.updateConfig. now rewrite Hc. Qed.

Lemma call_well_formed (w : World) (self : AppLogger.t) (now : Instant) (c : Call) :
  well_formed w self ->
  exists w' self', call w self now c = Some (w', self') /\
                   well_formed w' self' /\
                   AppLogger.route self' = AppLogger.route self.
Proof.
  intros (Hcfg & Hclass).
  destruct c as [level message obj | s message obj | | | newConfig]; simpl.
  - eexists _, _. split; [ reflexivity | ]. split; [ | reflexivity ].
    split; [ | exact Hclass ]. now rewrite genLog_heap.
  - eexists _, _. split; [ reflexivity | ]. split; [ | reflexivity ].
    split; [ | exact Hclass ]. now rewrite method_genLog, genLog_heap.
  - eexists _, _. split; [ reflexivity | ]. split; [ | reflexivity ].
    split; [ exact Hcfg | now apply close_class ].
  - destruct Hcfg as [c Hc]. rewrite (getConfig_total _ _ _ Hc).
    exists (fst (alloc w c)), self. split; [ reflexivity | ]. split; [ | reflexivity ].
    split; [ | exact Hclass ].
    rewrite alloc_keeps; now exists c.
  - destruct Hcfg as [c Hc]. rewrite (updateConfig_total _ _ _ _ Hc).
    eexists _, _. split; [ reflexivity | ]. split; [ | reflexivity ].
    split; [ | apply createWinstonLogger_class ].
    exists (spread c newConfig). apply (alloc_fresh w).
Qed.

Lemma calls_well_formed (script : list (Instant * Call)) :
  forall (w : World) (self : AppLogger.t),
    well_formed w self ->
    exists w' self', calls w self script = Some (w', self') /\
                     well_formed w' self' /\
                     AppLogger.route self' = AppLogger.route self.
Proof.
  induction script as [ | [now c] rest IH ]; intros w self Hwf; simpl.
  - now exists w, self.
  - destruct (call_well_formed w self now c Hwf) as (w1 & self1 & Hcall & Hwf1 & Hroute1).
    rewrite Hcall.
    destruct (IH w1 self1 Hwf1) as (w2 & self2 & Hcalls & Hwf2 & Hroute2).
    exists w2, self2. repeat split; try apply Hwf2; [ exact Hcalls | congruence ].
Qed.

(** ** Digits and characters *)

#[local] Arguments Intl.digit : simpl never.
#[local] Arguments FilenameTest.is_digit : simpl never.

Lemma digit_is_digit (n : nat) : FilenameTest.is_digit (Intl.digit n) = true.
Proof.
  unfold Intl.digit.
  pose proof (Nat.mod_upper_bound n 10) as Hlt.
  destruct (n mod 10) as [ | [ | [ | [ | [ | [ | [ | [ | [ | [ | k ] ] ] ] ] ] ] ] ] ];
    try reflexivity.
  lia.
Qed.

Lemma all_digits_pad2 (n : nat) : all_digits (Intl.pad2 n) = true.
Proof. unfold Intl.pad2. cbn [all_digits]. now rewrite !digit_is_digit. Qed.

Lemma all_digits_pad4 (n : nat) : all_digits (Intl.pad4 n) = true.
Proof. unfold Intl.pad4, Intl.pad2. cbn [all_digits]. now rewrite !digit_is_digit. Qed.

Lemma all_digits_uint (d : Decimal.uint) : all_digits (NilEmpty.string_of_uint d) = true.
Proof. induction d; simpl; auto. Qed.

Lemma all_digits_number (n : nat) : all_digits (Intl.number n) = true.
Proof.
  unfold Intl.number, NilZero.string_of_uint.
  destruct (Nat.to_uint n) eqn:Hd; try reflexivity; rewrite <- Hd; apply all_digits_uint.
Qed.

Lemma all_digits_field (style : FieldStyle) (n : nat) :
  all_digits (Intl.field style n) = true.
Proof. destruct style; [ apply all_digits_pad2 | apply all_digits_number ]. Qed.

Lemma all_digits_app (a b : string) :
  all_digits (a ++ b) = all_digits a && all_digits b.
Proof.
  induction a as [ | x a IH ]; simpl; [ reflexivity | ].
  now rewrite IH, andb_assoc.
Qed.

Lemma lacks_app (c : ascii) (a b : string) : lacks c (a ++ b) = lacks c a && lacks c b.
Proof.
  induction a as [ | x a IH ]; simpl; [ reflexivity | ].
  now rewrite IH, andb_assoc.
Qed.

Lemma digits_lack (c : ascii) (s : string) :
  FilenameTest.is_digit c = false -> all_digits s = true -> lacks c s = true.
Proof.
  intros Hc. induction s as [ | x s IH ]; simpl; [ reflexivity | ].
  intros [Hx Hs]%andb_prop. rewrite (IH Hs), andb_true_r.
  destruct (Ascii.eqb_spec x c) as [-> | _]; [ congruence | reflexivity ].
Qed.

(** ** What the serializer accepts *)

Lemma JsValue_nested_ind (P : JsValue -> Prop) :
  P JsUndefined -> P JsNull -> (forall b, P (JsBoolean b)) ->
  (forall z, P (JsNumber z)) -> (forall z, P (JsBigInt z)) ->
  (forall s, P (JsString s)) -> P JsFunction ->
  (forall items, Forall P items -> P (JsArray items)) ->
  (forall props, Forall (fun kv => P (snd kv)) props -> P (JsObject props)) ->
  forall v, P v.
Proof.
  intros Hundef Hnull Hbool Hnum Hbig Hstr Hfun Harr Hobj.
  fix IH 1.
  intros [ | | b | z | z | s | | items | props ];
    [ exact Hundef | exact Hnull | apply Hbool | apply Hnum | apply Hbig | apply Hstr
    | exact Hfun | | ].
  - apply Harr. induction items as [ | x r IHr ]; constructor; [ apply IH | exact IHr ].
  - apply Hobj. induction props as [ | [k x] r IHr ]; constructor; [ apply IH | exact IHr ].
Qed.

Lemma serialize_array (items : list JsValue) :
  SerializeJSONProperty (JsArray items)
  = bind (serialize_elements items) (fun ts => Ok (Some ("[" ++ join "," ts ++ "]"))).
Proof. reflexivity. Qed.

Lemma serialize_object (props : list (string * JsValue)) :
  SerializeJSONProperty (JsObject props)
  = bind (serialize_members props) (fun ts => Ok (Some ("{" ++ join "," ts ++ "}"))).
Proof. reflexivity. Qed.

Lemma serialize_elements_cons (x : JsValue) (r : list JsValue) :
  serialize_elements (x :: r)
  = bind (SerializeJSONProperty x) (fun t =>
    bind (serialize_elements r) (fun ts =>
    Ok (match t with Some s => s | None => "null" end :: ts))).
Proof. reflexivity. Qed.

Lemma serialize_members_cons (k : string) (x : JsValue) (r : list (string * JsValue)) :
  serialize_members ((k, x) :: r)
  = bind (SerializeJSONProperty x) (fun t =>
    bind (serialize_members r) (fun ts =>
    Ok (match t with
        | Some s => (QuoteJSONString k ++ ":" ++ s) :: ts
        | None => ts
        end))).
Proof. reflexivity. Qed.

Lemma quote_char_lacks_LF (c : ascii) : lacks LF (quote_char c) = true.
Proof. destruct c as [ [] [] [] [] [] [] [] [] ]; reflexivity. Qed.

Lemma QuoteJSONString_lacks_LF (s : string) : lacks LF (QuoteJSONString s) = true.
Proof.
  unfold QuoteJSONString. cbn [lacks].
  assert (Hq : lacks LF (quote_chars s ++ String (ascii_of_nat 34) EmptyString) = true).
  { induction s as [ | c s IH ]; [ reflexivity | ].
    cbn [quote_chars]. rewrite append_assoc, lacks_app, quote_char_lacks_LF. exact IH. }
  now rewrite Hq.
Qed.

Lemma decimal_lacks_LF (z : Z) : lacks LF (decimal z) = true.
Proof.
  unfold decimal, NilZero.string_of_int.
  assert (Huint : forall d, lacks LF (NilZero.string_of_uint d) = true).
  { intros d. unfold NilZero.string_of_uint.
    destruct d; try reflexivity;
      apply digits_lack; try reflexivity; apply all_digits_uint. }
  destruct (Z.to_int z) as [d | d]; [ apply Huint | ].
  cbn [lacks]. now rewrite Huint.
Qed.

Lemma join_lacks (c : ascii) (sep : string) (l : list string) :
  lacks c sep = true ->
  Forall (fun s => lacks c s = true) l ->
  lacks c (join sep l) = true.
Proof.
  intros Hsep Hl. induction Hl as [ | x r Hx Hr IH ]; [ reflexivity | ].
  destruct r as [ | y r ]; [ exact Hx | ].
  change (join sep (x :: y :: r)) with (x ++ sep ++ join sep (y :: r)).
  now rewrite !lacks_app, Hx, Hsep, IH.
Qed.

(** What [JSON.stringify] does with a value: it throws, and then the BigInt
    error, exactly when a BigInt occurs in the value; otherwise it returns,
    and the text it returns has no line feed in it. *)
Lemma stringify_cases (v : JsValue) :
  (has_bigint v = true -> JSON_stringify v = Throw bigint_error) /\
  (has_bigint v = false ->
   exists t : option string,
     JSON_stringify v = Ok t /\ lacks LF (template t) = true).
Proof.
  unfold JSON_stringify.
  induction v as [ | | b | z | z | s | | items IH | props IH ] using JsValue_nested_ind;
    cbn [has_bigint]; (split; [ intros Hbig | intros Hnone ]); try discriminate;
    try (eexists; split; [ reflexivity | ]; try reflexivity).
  - now destruct b.
  - apply decimal_lacks_LF.
  - reflexivity.
  - apply QuoteJSONString_lacks_LF.
  - rewrite serialize_array.
    assert (Hthrow : serialize_elements items = Throw bigint_error).
    { induction IH as [ | x r [Hx1 Hx2] _ IHr ]; [ discriminate | ].
      rewrite serialize_elements_cons. cbn [existsb] in Hbig.
      destruct (has_bigint x) eqn:Hbx.
      - now rewrite (Hx1 eq_refl).
      - destruct (Hx2 eq_refl) as (t & -> & _). cbn [bind].
        now rewrite (IHr Hbig). }
    now rewrite Hthrow.
  - rewrite serialize_array.
    assert (Hok : exists ts, serialize_elements items = Ok ts /\
                             Forall (fun s => lacks LF s = true) ts).
    { induction IH as [ | x r [Hx1 Hx2] _ IHr ]; [ now exists [] | ].
      rewrite serialize_elements_cons. cbn [existsb] in Hnone.
      apply orb_false_elim in Hnone as [Hbx Hr].
      destruct (Hx2 Hbx) as (t & -> & Ht). destruct (IHr Hr) as (ts & -> & Hts).
      cbn [bind]. eexists. split; [ reflexivity | ].
      constructor; [ | exact Hts ]. now destruct t. }
    destruct Hok as (ts & -> & Hts). cbn [bind]. eexists. split; [ reflexivity | ].
    cbn [template]. rewrite !lacks_app, (join_lacks LF "," ts eq_refl Hts). reflexivity.
  - rewrite serialize_object.
    assert (Hthrow : serialize_members props = Throw bigint_error).
    { induction IH as [ | [k x] r [Hx1 Hx2] _ IHr ]; [ discriminate | ].
      rewrite serialize_members_cons. cbn [existsb snd] in Hbig. cbn [snd] in Hx1, Hx2.
      destruct (has_bigint x) eqn:Hbx.
      - now rewrite (Hx1 eq_refl).
      - destruct (Hx2 eq_refl) as (t & -> & _). cbn [bind].
        now rewrite (IHr Hbig). }
    now rewrite Hthrow.
  - rewrite serialize_object.
    assert (Hok : exists ts, serialize_members props = Ok ts /\
                             Forall (fun s => lacks LF s = true) ts).
    { induction IH as [ | [k x] r [Hx1 Hx2] _ IHr ]; [ now exists [] | ].
      rewrite serialize_members_cons. cbn [existsb snd] in Hnone. cbn [snd] in Hx1, Hx2.
      apply orb_false_elim in Hnone as [Hbx Hr].
      destruct (Hx2 Hbx) as (t & -> & Ht). destruct (IHr Hr) as (ts & -> & Hts).
      cbn [bind]. destruct t as [s | ]; eexists; (split; [ reflexivity | ]);
        [ | exact Hts ].
      constructor; [ | exact Hts ].
      cbn [template] in Ht. now rewrite !lacks_app, QuoteJSONString_lacks_LF, Ht. }
    destruct Hok as (ts & -> & Hts). cbn [bind]. eexists. split; [ reflexivity | ].
    cbn [template]. rewrite !lacks_app, (join_lacks LF "," ts eq_refl Hts). reflexivity.
Qed.

(** ** The engine on the loggers of the class *)



Lemma isEnabled_severity (l t : Severity) :
  Engine.isEnabled (levels LOGGING_LEVELS) (severity_name l) (severity_name t)
  = (Spec.rank l <=? Spec.rank t)%nat.
Proof. destruct l, t; reflexivity. Qed.

Lemma map_not_nil {A B : Type} (f : A -> B) (l : list A) : l <> [] -> map f l <> [].
Proof. destruct l; [ congruence | discriminate ]. Qed.

(** The colours registered by the class paint a text as [paint] says. *)
Lemma colorize_severity (l : Severity) (text : string) :
  Engine.Colorizer_colorize (Engine.addColors (colors LOGGING_LEVELS))
    (severity_name l) text
  = Ok (paint l text).
Proof. destruct l; reflexivity. Qed.

(** A transport of the class renders the entry again, with the same
    result as the logger, and the console paints what it rendered. *)
Lemma transport_writes (allColors : list (string * list string)) (now : Instant)
    (l : Severity) (i : LogInfo) (line : string) (m : option string)
    (t : Engine.Transport) :
  allColors = Engine.addColors (colors LOGGING_LEVELS) ->
  class_transport t ->
  createLogString now i = Ok line ->
  bind (Engine.transform allColors (Engine.transport_format t) now
          {| Engine.entry_info := i; Engine.entry_LEVEL := severity_name l;
             Engine.entry_MESSAGE := m |})
       (fun e => Ok [ (Engine.destination now t, template (Engine.entry_MESSAGE e)) ])
  = Ok [ (Engine.destination now t, sink_line l t line) ].
Proof.
  intros -> Hclass Hline.
  destruct t as [dir file pat size files fmt | dir file fmt | fmt];
    cbn [class_transport] in Hclass; subst fmt;
    cbn [Engine.transport_format Engine.transform Engine.entry_info Engine.entry_LEVEL
         Engine.entry_MESSAGE];
    rewrite Hline; cbn [bind Engine.entry_MESSAGE Engine.entry_LEVEL Engine.entry_info];
    [ reflexivity | reflexivity | ].
  rewrite !colorize_severity. reflexivity.
Qed.

Lemma deliver_class (lg : Engine.Logger) (now : Instant) (l : Severity) (i : LogInfo)
    (line : string) (m : option string) (transports : list Engine.Transport) :
  Engine.lg_colors lg = Engine.addColors (colors LOGGING_LEVELS) ->
  createLogString now i = Ok line ->
  Forall class_transport transports ->
  Engine.deliver lg now
    {| Engine.entry_info := i; Engine.entry_LEVEL := severity_name l;
       Engine.entry_MESSAGE := m |} transports
  = Ok (if Engine.isEnabled (Engine.lg_levels lg) (severity_name l) (Engine.lg_level lg)
        then map (fun t => (Engine.destination now t, sink_line l t line)) transports
        else []).
Proof.
  intros Hcol Hline Hts.
  induction Hts as [ | t ts Ht _ IH ]; cbn [Engine.deliver Engine.entry_LEVEL].
  - now destruct (Engine.isEnabled _ _ _).
  - rewrite IH.
    destruct (Engine.isEnabled _ _ _); [ | reflexivity ].
    now rewrite (transport_writes _ now l i line m t Hcol Ht Hline).
Qed.

(** The entry [Engine.log] builds for the arguments of [genLog]. *)
Lemma log_record (lg : Engine.Logger) (now : Instant) (name text : string) (o : JsValue) :
  Engine.lg_format lg = Engine.printf createLogString ->
  Engine.log lg now name text (if truthy o then Some o else None)
  = bind (createLogString now (record_of name text o)) (fun line =>
    Engine.deliver lg now
      {| Engine.entry_info := record_of name text o; Engine.entry_LEVEL := name;
         Engine.entry_MESSAGE := Some line |}
      (Engine.lg_transports lg)).
Proof.
  intros Hfmt. unfold Engine.log, record_of. rewrite Hfmt.
  cbn [Engine.transform Engine.entry_info Engine.entry_LEVEL].
  destruct (truthy o), (Engine.has_token text); cbn [andb negb];
    now destruct (createLogString _ _).
Qed.

Lemma genLog_log (w : World) (now : Instant) (self : AppLogger.t) (name text : string)
    (o : JsValue) :
  AppLogger.genLog w now self name text o
  = match Engine.log (AppLogger.logger self) now name text
            (if truthy o then Some o else None) with
    | Ok lines => (write w lines, Resolved)
    | Throw e => (w, Rejected e)
    end.
Proof.
  unfold AppLogger.genLog. cbv zeta.
  destruct o; cbn [truthy]; try reflexivity;
    match goal with |- context [if ?b then _ else _] => destruct b end; reflexivity.
Qed.

Lemma createLogString_no_obj (now : Instant) (name text : string) :
  createLogString now {| level := name; message := text; obj := None |}
  = Ok (plain_line now name text).
Proof.
  unfold createLogString, plain_line. cbn [obj level message].
  now rewrite !append_assoc.
Qed.

(** What [createLogString] returns for the entry of a call. *)
Lemma createLogString_record (now : Instant) (name text : string) (o : JsValue) :
  createLogString now (record_of name text o)
  = if truthy o && negb (Engine.has_token text)
    then bind (JSON_stringify o) (fun t =>
         Ok (formatDate now None ++ " | " ++ padStart 9 (toUpperCase name) ++ " | "
             ++ text ++ " | " ++ template t))
    else Ok (plain_line now name text).
Proof.
  unfold createLogString, record_of, plain_line. cbn [obj level message].
  destruct (truthy o) eqn:Ho, (Engine.has_token text); cbn [andb negb];
    rewrite ?Ho, ?append_assoc; try reflexivity.
  destruct (JSON_stringify o); cbn [bind]; now rewrite ?append_assoc.
Qed.

(** The outcome of a log call at a level of the class, on a logger of the
    class: the engine renders the entry whatever the level; when that
    fails the call is rejected and nothing is written, otherwise the
    transports get the line if the threshold admits the level. *)
Lemma genLog_outcome (w : World) (now : Instant) (self : AppLogger.t) (l : Severity)
    (text : string) (o : JsValue) :
  class_logger (AppLogger.logger self) ->
  AppLogger.genLog w now self (severity_name l) text o
  = match createLogString now (record_of (severity_name l) text o) with
    | Ok line => (write w (deliveries now (AppLogger.logger self) l line), Resolved)
    | Throw e => (w, Rejected e)
    end.
Proof.
  intros (_ & Hfmt & Hcol & Hts).
  rewrite genLog_log, (log_record _ _ _ _ _ Hfmt).
  destruct (createLogString _ _) as [line | e] eqn:Hline; cbn [bind]; [ | reflexivity ].
  now rewrite (deliver_class _ now l _ line _ _ Hcol Hline Hts).
Qed.

(** A call the engine cannot render is rejected at any level, also one
    that is no level of the class. *)
Lemma genLog_throws (w : World) (now : Instant) (self : AppLogger.t) (name text : string)
    (o : JsValue) (e : JsError) :
  Engine.lg_format (AppLogger.logger self) = Engine.printf createLogString ->
  createLogString now (record_of name text o) = Throw e ->
  AppLogger.genLog w now self name text o = (w, Rejected e).
Proof.
  intros Hfmt Hthrow. now rewrite genLog_log, (log_record _ _ _ _ _ Hfmt), Hthrow.
Qed.

(** A call whose payload is falsy, at a level of the class. *)
Lemma genLog_falsy (w : World) (now : Instant) (self : AppLogger.t) (l : Severity)
    (text : string) (o : JsValue) :
  class_logger (AppLogger.logger self) ->
  truthy o = false ->
  AppLogger.genLog w now self (severity_name l) text o
  = (write w (deliveries now (AppLogger.logger self) l
                (plain_line now (severity_name l) text)),
     Resolved).
Proof.
  intros Hclass Hfalsy.
  now rewrite (genLog_outcome _ _ _ _ _ _ Hclass), createLogString_record, Hfalsy.
Qed.



(** ** Severity ranks and the threshold *)



(** The example of the specification: with threshold [error], a [debug] call
    is a no-op and an [exception] call reaches both default sinks, the
    console in the colours of the level. *)
Example threshold_error_example :
  let built := AppLogger.constructor empty_world may_26_afternoon "svc"
                 (threshold_only "error") in
  AppLogger.debug (fst built) may_26_afternoon (snd built) "quiet" JsUndefined
    = (fst built, Resolved) /\
  emitted (fst built)
    (fst (AppLogger.exception (fst built) may_26_afternoon (snd built) "loud" JsUndefined))
    = [ (Engine.LogFile "./logs/" "svc-20250526.log",
         "26.05.2025, 14:30:15 | EXCEPTION | loud |");
        (Engine.ConsoleStream,
         Engine.escape 1 ++ Engine.escape 31
         ++ "26.05.2025, 14:30:15 | EXCEPTION | loud |"
         ++ Engine.escape 39 ++ Engine.escape 22) ].
Proof. split; reflexivity. Qed.

(** ** The rendered line *)

Lemma label_padStart (s : Severity) :
  padStart 9 (toUpperCase (severity_name s)) = Spec.label s.
Proof. destruct s; reflexivity. Qed.

Lemma createLogString_some (now : Instant) (name text : string) (o : JsValue) :
  createLogString now {| level := name; message := text; obj := Some o |}
  = if truthy o
    then bind (JSON_stringify o)
              (fun json => Ok (formatDate now None ++ " | " ++ padStart 9 (toUpperCase name)
                               ++ " | " ++ text ++ " | " ++ template json))
    else Ok (plain_line now name text).
Proof.
  unfold createLogString, plain_line. cbn [obj level message].
  destruct (truthy o); [ | now rewrite !append_assoc ].
  destruct (JSON_stringify o) as [json | e]; [ | reflexivity ].
  unfold bind. now rewrite !append_assoc.
Qed.

(** C2, as the code has it.  The line is the timestamp, the label and the
    message joined by [" | "], the label being the severity name in capitals,
    flush right in exactly 9 characters.  A truthy payload adds [" | "] and
    the text [JSON.stringify] returns for it (the word [undefined] when it
    returns none); without payload, or with a falsy one, the line ends in
    [" |"]. *)
Theorem C2_line_layout (now : Instant) (s : Severity) (text : string) :
  let base := formatDate now None ++ " | " ++ Spec.label s ++ " | " ++ text in
  String.length (Spec.label s) = 9 /\
  Spec.label s
    = spaces (9 - String.length (severity_name s)) ++ toUpperCase (severity_name s) /\
  createLogString now {| level := severity_name s; message := text; obj := None |}
    = Ok (base ++ " |") /\
  (forall payload : JsValue,
      createLogString now {| level := severity_name s; message := text; obj := Some payload |}
      = if truthy payload
        then bind (JSON_stringify payload)
                  (fun json => Ok (base ++ " | " ++ template json))
        else Ok (base ++ " |")).
Proof.
  intros base. subst base.
  split; [ destruct s; reflexivity | ].
  split; [ destruct s; reflexivity | ].
  split.
  - rewrite createLogString_no_obj. unfold plain_line.
    now rewrite label_padStart, !append_assoc.
  - intros payload. rewrite createLogString_some. unfold plain_line.
    rewrite label_padStart.
    destruct (truthy payload); [ | now rewrite !append_assoc ].
    destruct (JSON_stringify payload); unfold bind; [ | reflexivity ].
    now rewrite !append_assoc.
Qed.

(** C2 as stated fails for a payload that is present but falsy: the number
    0 is neither omitted nor null, the specification's rendering ends in
    [" | 0"], and the formatter's line ends in [" |"]. *)
Lemma C2_fails_for_zero_payload :
  Spec.present (JsNumber 0) = true /\
  Spec.render (formatDate may_26_afternoon None) Info "Temp ok" (JsNumber 0)
    = Ok "26.05.2025, 14:30:15 |      INFO | Temp ok | 0" /\
  createLogString may_26_afternoon
    {| level := "info"; message := "Temp ok"; obj := Some (JsNumber 0) |}
    = Ok "26.05.2025, 14:30:15 |      INFO | Temp ok |" /\
  createLogString may_26_afternoon
    {| level := severity_name Info; message := "Temp ok"; obj := Some (JsNumber 0) |}
    <> Spec.render (formatDate may_26_afternoon None) Info "Temp ok" (JsNumber 0).
Proof. repeat split; try reflexivity. discriminate. Qed.

(** The example of the README: an object payload is appended as compact
    JSON. *)
Example payload_example :
  createLogString may_26_afternoon
    {| level := "info"; message := "Temperature sensor reading";
       obj := Some (JsObject [ ("temp", JsNumber 25); ("humidity", JsNumber 60) ]) |}
  = Ok ("26.05.2025, 14:30:15 |      INFO | Temperature sensor reading | "
        ++ "{" ++ QuoteJSONString "temp" ++ ":25," ++ QuoteJSONString "humidity" ++ ":60}").
Proof. reflexivity. Qed.

(** ** The route and the file names *)

(** The route of the specification's example, in the default locale. *)
Example route_example :
  AppLogger._generateRoute may_26_last_second DEFAULT_CONFIG "sensor" = "sensor-20250526" /\
  AppLogger._generateRoute may_26_first_second DEFAULT_CONFIG "sensor" = "sensor-20250526" /\
  Spec.deriveRoute "sensor" may_26_last_second de_DE = "sensor-20250526".
Proof. repeat split. Qed.

(** C3 at its failing input.  With [dateLocale: 'en-US'] the rendered date
    is [05/26/2025]; it has no ['.'], so the split yields one piece, that
    piece is taken for the day, month and year are [undefined], and the
    route is not the [<name>-YYYYMMDD] of the specification. *)
Theorem C3_route_for_en_US :
  formatDate may_26_afternoon (Some en_US) = "05/26/2025, 14:30:15" /\
  AppLogger._generateRoute may_26_afternoon (spread DEFAULT_CONFIG american) "test-custom"
    = "test-custom-undefinedundefined05/26/2025" /\
  AppLogger.route
    (snd (AppLogger.constructor empty_world may_26_afternoon "test-custom" american))
    = "test-custom-undefinedundefined05/26/2025" /\
  Spec.deriveRoute "test-custom" may_26_afternoon en_US = "test-custom-20250526" /\
  AppLogger._generateRoute may_26_afternoon (spread DEFAULT_CONFIG american) "test-custom"
    <> Spec.deriveRoute "test-custom" may_26_afternoon en_US.
Proof. repeat split; discriminate. Qed.

(** C4 at its failing input.  The rotating logger of the repository's own
    file-name test, created on 26 May 2025, writes on that day to a file
    whose name carries the day twice, once from the route and once from the
    sink; the test's own pattern flags it as a double date. *)
Theorem C4_rotating_filename_has_two_dates :
  let built := AppLogger.constructor empty_world may_26_afternoon "rotate-test" rotating in
  Engine.lg_transports (AppLogger.logger (snd built))
    = [ Engine.DailyRotateFile "./test-logs-simple/" "rotate-test-20250526-%DATE%.log"
          "YYYY-MM-DD" "20m" "14d" (Engine.printf createLogString);
        Engine.Console (Engine.combine [ Engine.printf createLogString;
                                         Engine.colorize true ]) ] /\
  map (Engine.destination may_26_afternoon) (Engine.lg_transports (AppLogger.logger (snd built)))
    = [ Engine.LogFile "./test-logs-simple/" "rotate-test-20250526-2025-05-26.log";
        Engine.ConsoleStream ] /\
  FilenameTest.doubleDate "rotate-test-20250526-2025-05-26.log" = true /\
  map (Engine.destination may_27_morning) (Engine.lg_transports (AppLogger.logger (snd built)))
    = [ Engine.LogFile "./test-logs-simple/" "rotate-test-20250526-2025-05-27.log";
        Engine.ConsoleStream ] /\
  FilenameTest.doubleDate "rotate-test-20250526-2025-05-27.log" = true.
Proof. repeat split. Qed.

(** The classifier on the two other shapes of name. *)
Example classifier_example :
  FilenameTest.doubleDate "rotate-test-2025-05-26.log" = false /\
  FilenameTest.singleDate "rotate-test-2025-05-26.log" = true /\
  FilenameTest.doubleDate "simple-test-20250526.log" = false /\
  FilenameTest.singleDate "simple-test-20250526.log" = false.
Proof. repeat split. Qed.

(** ** The timestamp of a line *)

(** The fields the formatter asks for. *)
Lemma DATE_OPTIONS_fields :
  month DATE_OPTIONS = two_digit /\ day DATE_OPTIONS = two_digit /\
  year DATE_OPTIONS = numeric /\ hour DATE_OPTIONS = two_digit /\
  minute DATE_OPTIONS = two_digit /\ second DATE_OPTIONS = two_digit.
Proof. repeat split. Qed.

(** Whatever the configuration, the timestamp [createLogString] puts in
    front of a line is the ['de-DE'] rendering of the instant of the call. *)
Lemma line_timestamp_is_de_DE (now : Instant) (info : LogInfo) (line : string) :
  createLogString now info = Ok line ->
  exists rest : string,
    line = Intl.toLocaleString de_DE DATE_OPTIONS now ++ " | " ++ rest.
Proof.
  change (Intl.toLocaleString de_DE DATE_OPTIONS now) with (formatDate now None).
  destruct info as [name text [o | ] ].
  - rewrite createLogString_some. unfold plain_line.
    destruct (truthy o); [ destruct (JSON_stringify o) as [json | e] | ]; unfold bind;
      intros Hline; try discriminate; apply Ok_inj in Hline; subst line;
      eexists; reflexivity.
  - rewrite createLogString_no_obj. unfold plain_line.
    intros Hline; apply Ok_inj in Hline; subst line. eexists; reflexivity.
Qed.

(** C7 at its failing input.  A logger configured with [dateLocale:
    'en-US'] still stamps its lines in the German layout: [createLogString]
    calls [formatDate()] without the configured locale, where
    [_generateRoute] passes it.  The file gets the line as rendered, the
    console the same line in the green of its level. *)
Theorem C7_timestamp_for_en_US :
  let built := AppLogger.constructor empty_world may_26_afternoon "test-custom" american in
  dateLocale <$> (heap (fst built) !! AppLogger.config (snd built)) = Some en_US /\
  formatDate may_27_morning (Some en_US) = "05/27/2025, 08:00:00" /\
  map snd (emitted (fst built)
             (fst (AppLogger.info (fst built) may_27_morning (snd built) "started" JsUndefined)))
    = [ "27.05.2025, 08:00:00 |      INFO | started |";
        Engine.escape 32 ++ "27.05.2025, 08:00:00 |      INFO | started |"
        ++ Engine.escape 39 ].
Proof. repeat split. Qed.

(** ** After [close] *)





(** ** Payloads without JSON text *)

(** C6, as the code has it.  The engine renders the entry of a call before
    any threshold is looked at, so that a truthy payload on which
    [JSON.stringify] throws, handed over with a message that holds no
    token, has the call rejected at every level, with the error the
    serializer threw; nothing is written and the store is left as it was,
    so that later calls and the logger's lifecycle are unaffected.  These
    are the only calls that fail.  A truthy payload for which
    [JSON.stringify] returns no text is no error: the line carries the word
    [undefined] and the call resolves.  A falsy payload is not serialized,
    and a payload next to a message that holds a token never reaches the
    formatter: the line is the one without payload and the call
    resolves. *)
Theorem C6_serializer_error_rejects_call (w : World) (now : Instant) (self : AppLogger.t)
    (text : string) (o : JsValue) :
  well_formed w self ->
  (forall (name : string) (e : JsError),
      truthy o = true -> Engine.has_token text = false -> JSON_stringify o = Throw e ->
      AppLogger.genLog w now self name text o = (w, Rejected e)) /\
  (forall l : Severity,
      (failed (snd (AppLogger.genLog w now self (severity_name l) text o)) <->
       truthy o = true /\ Engine.has_token text = false /\
       exists e : JsError, JSON_stringify o = Throw e) /\
      (truthy o = true -> Engine.has_token text = false -> JSON_stringify o = Ok None ->
       AppLogger.genLog w now self (severity_name l) text o
       = (write w (deliveries now (AppLogger.logger self) l
                     (formatDate now None ++ " | " ++ padStart 9 (toUpperCase (severity_name l))
                      ++ " | " ++ text ++ " | undefined")),
          Resolved)) /\
      (truthy o = false \/ Engine.has_token text = true ->
       AppLogger.genLog w now self (severity_name l) text o
       = (write w (deliveries now (AppLogger.logger self) l
                     (plain_line now (severity_name l) text)),
          Resolved))).
Proof.
  intros (_ & Hclass).
  split.
  - intros name e Ho Htok Hthrow.
    apply genLog_throws; [ apply Hclass | ].
    now rewrite createLogString_record, Ho, Htok, Hthrow.
  - intros l. rewrite (genLog_outcome _ _ _ _ _ _ Hclass), createLogString_record.
    destruct (truthy o); [ destruct (Engine.has_token text) | ]; cbn [andb negb].
    + split; [ split | split ]; try discriminate; auto.
      * intros [e He]; discriminate He.
      * intros (_ & H & _); discriminate H.
    + destruct (JSON_stringify o) as [t | e]; cbn [bind].
      * split; [ split | split ].
        -- intros [e He]; discriminate He.
        -- intros (_ & _ & e & He); discriminate He.
        -- intros _ _ Ht. apply Ok_inj in Ht. now subst t.
        -- intros [H | H]; discriminate H.
      * split; [ split | split ].
        -- intros _. repeat split. now exists e.
        -- intros _. now exists e.
        -- intros _ _ H; discriminate H.
        -- intros [H | H]; discriminate H.
    + split; [ split | split ]; try discriminate; auto.
      * intros [e He]; discriminate He.
      * intros (H & _); discriminate H.
Qed.

(** C6 as stated fails.  A function has no JSON text ([JSON.stringify]
    returns [undefined] for it), yet the call resolves and the line carries
    the word [undefined]; the BigInt zero cannot be serialized either, yet,
    being falsy, it is dropped and the call resolves; and a BigInt next to
    a message with a token is dropped as well. *)
Lemma C6_fails_for_function_payload :
  let built := AppLogger.constructor empty_world may_26_afternoon "svc" no_options in
  JSON_stringify JsFunction = Ok None /\
  AppLogger.info (fst built) may_26_afternoon (snd built) "callback" JsFunction
    = (write (fst built)
         [ (Engine.LogFile "./logs/" "svc-20250526.log",
            "26.05.2025, 14:30:15 |      INFO | callback | undefined");
           (Engine.ConsoleStream,
            Engine.escape 32
            ++ "26.05.2025, 14:30:15 |      INFO | callback | undefined"
            ++ Engine.escape 39) ],
       Resolved) /\
  ~ failed (snd (AppLogger.info (fst built) may_26_afternoon (snd built) "callback" JsFunction)) /\
  JSON_stringify (JsBigInt 0) = Throw (TypeError "Do not know how to serialize a BigInt") /\
  snd (AppLogger.info (fst built) may_26_afternoon (snd built) "count" (JsBigInt 0))
    = Resolved /\
  JSON_stringify (JsBigInt 10) = Throw (TypeError "Do not know how to serialize a BigInt") /\
  AppLogger.info (fst built) may_26_afternoon (snd built) "load %d" (JsBigInt 10)
    = (write (fst built)
         [ (Engine.LogFile "./logs/" "svc-20250526.log",
            "26.05.2025, 14:30:15 |      INFO | load %d |");
           (Engine.ConsoleStream,
            Engine.escape 32 ++ "26.05.2025, 14:30:15 |      INFO | load %d |"
            ++ Engine.escape 39) ],
       Resolved).
Proof.
  split; [ reflexivity | ].
  split; [ reflexivity | ].
  split; [ intros [e He]; discriminate He | ].
  repeat split; reflexivity.
Qed.

(** ** The route is fixed *)

(** C8.  The route of an instance is the one derived in the constructor, at
    the instant of construction; any later sequence of calls, each at its
    own wall-clock instant and among them any number of [updateConfig]
    calls, runs to completion and leaves the route as it was. *)
Theorem C8_route_is_fixed (w : World) (now : Instant) (route : string)
    (config : PartialConfig) (script : list (Instant * Call)) :
  let built := AppLogger.constructor w now route config in
  AppLogger.route (snd built)
    = AppLogger._generateRoute now (spread DEFAULT_CONFIG config) route /\
  exists (w' : World) (self' : AppLogger.t),
    calls (fst built) (snd built) script = Some (w', self') /\
    AppLogger.route self' = AppLogger.route (snd built).
Proof.
  intros built. split; [ reflexivity | ].
  destruct (calls_well_formed script (fst built) (snd built)
              (constructor_well_formed w now route config))
    as (w' & self' & Hcalls & _ & Hroute).
  now exists w', self'.
Qed.

(** A logger built on 26 May keeps its route through a change of locale and
    of threshold and into the next day; the rebuilt file sink keeps the
    name. *)
Example route_survives_midnight :
  let built := AppLogger.constructor empty_world may_26_last_second "sensor" no_options in
  exists (w' : World) (self' : AppLogger.t),
    calls (fst built) (snd built)
      [ (may_26_last_second, CallLevel Info "before" JsUndefined);
        (may_27_morning, CallUpdateConfig american);
        (may_27_morning, CallUpdateConfig (threshold_only "debug"));
        (may_27_morning, CallLevel Debug "after" JsUndefined) ]
    = Some (w', self') /\
    AppLogger.route self' = "sensor-20250526" /\
    Engine.lg_transports (AppLogger.logger self')
      = [ Engine.File "./logs/" "sensor-20250526.log" (Engine.printf createLogString);
          Engine.Console (Engine.combine [ Engine.printf createLogString;
                                           Engine.colorize true ]) ].
Proof. eexists _, _. repeat split. Qed.

(** ** Configuration snapshots *)

(** C9.  Two [getConfig] calls in a row return two objects with the same
    fields, those of the logger's configuration; each is a new object,
    distinct from the logger's own; and whatever a client assigns to the
    first snapshot, the logger's configuration keeps its fields and the next
    [getConfig] returns them again. *)
Theorem C9_getConfig_snapshot (w : World) (self : AppLogger.t) :
  well_formed w self ->
  exists (c : LoggerConfig) (w1 : World) (r1 : nat) (w2 : World) (r2 : nat),
    heap w !! AppLogger.config self = Some c /\
    AppLogger.getConfig w self = Some (w1, r1) /\
    AppLogger.getConfig w1 self = Some (w2, r2) /\
    heap w2 !! r1 = Some c /\ heap w2 !! r2 = Some c /\
    r1 <> AppLogger.config self /\ r2 <> AppLogger.config self /\ r1 <> r2 /\
    forall f : LoggerConfig -> LoggerConfig,
      heap (mutate w1 r1 f) !! r1 = Some (f c) /\
      heap (mutate w1 r1 f) !! AppLogger.config self = Some c /\
      exists (w3 : World) (r3 : nat),
        AppLogger.getConfig (mutate w1 r1 f) self = Some (w3, r3) /\
        heap w3 !! r3 = Some c.
Proof.
  intros ([c Hc] & _).
  assert (Hw1 : heap (fst (alloc w c)) !! AppLogger.config self = Some c)
    by (rewrite alloc_keeps; [ exact Hc | now exists c ]).
  assert (Hnew1 : snd (alloc w c) <> AppLogger.config self)
    by (apply alloc_distinct; now exists c).
  exists c, (fst (alloc w c)), (snd (alloc w c)),
         (fst (alloc (fst (alloc w c)) c)), (snd (alloc (fst (alloc w c)) c)).
  split; [ exact Hc | ].
  split; [ now apply getConfig_total | ].
  split; [ now apply getConfig_total | ].
  split.
  { rewrite alloc_keeps; [ apply alloc_fresh | ]. exists c. apply alloc_fresh. }
  split; [ apply alloc_fresh | ].
  split; [ exact Hnew1 | ].
  split; [ apply alloc_distinct; now exists c | ].
  split.
  { apply not_eq_sym, alloc_distinct. exists c. apply alloc_fresh. }
  intros f.
  assert (Hkept : heap (mutate (fst (alloc w c)) (snd (alloc w c)) f)
                    !! AppLogger.config self = Some c)
    by (rewrite mutate_other; [ exact Hw1 | exact Hnew1 ]).
  split; [ apply mutate_same, alloc_fresh | ].
  split; [ exact Hkept | ].
  exists (fst (alloc (mutate (fst (alloc w c)) (snd (alloc w c)) f) c)),
         (snd (alloc (mutate (fst (alloc w c)) (snd (alloc w c)) f) c)).
  split; [ now apply getConfig_total | ].
  apply alloc_fresh.
Qed.

(** A client turns rotation on in its snapshot; the logger's configuration
    and the next snapshot still have it off. *)
Example snapshot_example :
  let built := AppLogger.constructor empty_world may_26_afternoon "svc" no_options in
  exists (w1 : World) (r1 : nat) (w2 : World) (r2 : nat),
    AppLogger.getConfig (fst built) (snd built) = Some (w1, r1) /\
    AppLogger.getConfig (mutate w1 r1 (fun c => spread c rotating)) (snd built)
      = Some (w2, r2) /\
    fileRotation <$> (heap w2 !! r1) = Some true /\
    fileRotation <$> (heap w2 !! r2) = Some false /\
    heap w2 !! AppLogger.config (snd built) = Some DEFAULT_CONFIG.
Proof. eexists _, _, _, _. repeat split. Qed.

(** ** Falsy payloads *)

(** C10.  A call of [genLog], or of a per-level method, whose payload is
    falsy does what the same call without payload does.  The payload is not
    serialized: the call resolves, and when the threshold admits the level
    every transport gets the line of a record without payload, which ends
    in [" |"], a file as it is and the console in the colours of the
    level; above the threshold nothing is written. *)
Theorem C10_falsy_payload_as_omitted (w : World) (now : Instant) (self : AppLogger.t)
    (name text : string) (o : JsValue) :
  well_formed w self ->
  truthy o = false ->
  AppLogger.genLog w now self name text o
    = AppLogger.genLog w now self name text JsUndefined /\
  (forall s : Severity,
      let line := formatDate now None ++ " | " ++ Spec.label s ++ " | " ++ text ++ " |" in
      let admitted := Engine.isEnabled (levels LOGGING_LEVELS) (severity_name s)
                        (Engine.lg_level (AppLogger.logger self)) in
      AppLogger.method s w now self text o
        = AppLogger.method s w now self text JsUndefined /\
      AppLogger.method s w now self text o
        = AppLogger.genLog w now self (severity_name s) text o /\
      snd (AppLogger.method s w now self text o) = Resolved /\
      emitted w (fst (AppLogger.method s w now self text o))
        = (if admitted
           then map (fun t => (Engine.destination now t,
                               match t with
                               | Engine.Console _ => paint s line
                               | _ => line
                               end))
                    (Engine.lg_transports (AppLogger.logger self))
           else [])).
Proof.
  intros (_ & Hclass) Hfalsy.
  split; [ rewrite !genLog_log; now rewrite Hfalsy | ].
  intros s line admitted.
  rewrite !method_genLog.
  rewrite (genLog_falsy _ _ _ _ _ _ Hclass Hfalsy).
  rewrite (genLog_falsy _ _ _ _ _ JsUndefined Hclass eq_refl).
  split; [ reflexivity | ]. split; [ reflexivity | ]. split; [ reflexivity | ].
  cbn [fst]. rewrite emitted_write. unfold deliveries.
  destruct Hclass as (-> & _). fold admitted.
  assert (Hline : plain_line now (severity_name s) text = line)
    by (unfold plain_line; subst line; now rewrite label_padStart).
  rewrite Hline. reflexivity.
Qed.

(** The three falsy payloads the claim names, next to an omitted one. *)
Example falsy_payload_example :
  let built := AppLogger.constructor empty_world may_26_afternoon "svc" no_options in
  let omitted := AppLogger.warn (fst built) may_26_afternoon (snd built) "low" JsUndefined in
  AppLogger.warn (fst built) may_26_afternoon (snd built) "low" (JsNumber 0) = omitted /\
  AppLogger.warn (fst built) may_26_afternoon (snd built) "low" (JsBoolean false) = omitted /\
  AppLogger.warn (fst built) may_26_afternoon (snd built) "low" (JsString "") = omitted /\
  map snd (emitted (fst built) (fst omitted))
    = [ "26.05.2025, 14:30:15 |      WARN | low |";
        Engine.escape 33 ++ "26.05.2025, 14:30:15 |      WARN | low |"
        ++ Engine.escape 39 ].
Proof. repeat split. Qed.

(** ** The theorems at concrete inputs *)

Lemma svc_well_formed : well_formed svc_world svc_logger.
Proof.
  split; [ exists DEFAULT_CONFIG; reflexivity | ].
  apply createWinstonLogger_class.
Defined.


(** C6 at a BigInt payload, below and above the threshold of the default
    logger. *)
Lemma C6_serializer_error_witness :
  well_formed svc_world svc_logger /\
  truthy (JsBigInt 10) = true /\
  Engine.has_token "count" = false /\
  JSON_stringify (JsBigInt 10) = Throw bigint_error /\
  AppLogger.genLog svc_world may_26_afternoon svc_logger "error" "count" (JsBigInt 10)
    = (svc_world, Rejected bigint_error) /\
  AppLogger.genLog svc_world may_26_afternoon svc_logger "debug" "count" (JsBigInt 10)
    = (svc_world, Rejected bigint_error) /\
  failed (snd (AppLogger.genLog svc_world may_26_afternoon svc_logger
                 (severity_name Debug) "count" (JsBigInt 10))).
Proof.
  split; [ exact svc_well_formed | ].
  split; [ reflexivity | ]. split; [ reflexivity | ]. split; [ reflexivity | ].
  destruct (C6_serializer_error_rejects_call svc_world may_26_afternoon svc_logger
              "count" (JsBigInt 10) svc_well_formed) as (Hreject & Hlevels).
  split; [ now apply Hreject | ].
  split; [ now apply Hreject | ].
  destruct (Hlevels Debug) as (Hiff & _).
  apply Hiff. repeat split. now exists bigint_error.
Defined.

(** C9 at the default logger. *)
Lemma C9_getConfig_witness :
  well_formed svc_world svc_logger /\
  exists (c : LoggerConfig) (w1 : World) (r1 : nat) (w2 : World) (r2 : nat),
    heap svc_world !! AppLogger.config svc_logger = Some c /\
    AppLogger.getConfig svc_world svc_logger = Some (w1, r1) /\
    AppLogger.getConfig w1 svc_logger = Some (w2, r2) /\
    heap w2 !! r1 = Some c /\ heap w2 !! r2 = Some c /\
    r1 <> AppLogger.config svc_logger /\ r2 <> AppLogger.config svc_logger /\ r1 <> r2 /\
    forall f : LoggerConfig -> LoggerConfig,
      heap (mutate w1 r1 f) !! r1 = Some (f c) /\
      heap (mutate w1 r1 f) !! AppLogger.config svc_logger = Some c /\
      exists (w3 : World) (r3 : nat),
        AppLogger.getConfig (mutate w1 r1 f) svc_logger = Some (w3, r3) /\
        heap w3 !! r3 = Some c.
Proof.
  split; [ exact svc_well_formed | ].
  exact (C9_getConfig_snapshot svc_world svc_logger svc_well_formed).
Defined.

(** C10 at the payload 0: the [info] call writes the two lines of the call
    without payload. *)
Lemma C10_falsy_payload_witness :
  well_formed svc_world svc_logger /\
  truthy (JsNumber 0) = false /\
  AppLogger.genLog svc_world may_26_afternoon svc_logger "info" "Temp ok" (JsNumber 0)
    = AppLogger.genLog svc_world may_26_afternoon svc_logger "info" "Temp ok" JsUndefined /\
  AppLogger.info svc_world may_26_afternoon svc_logger "Temp ok" (JsNumber 0)
    = AppLogger.info svc_world may_26_afternoon svc_logger "Temp ok" JsUndefined /\
  snd (AppLogger.info svc_world may_26_afternoon svc_logger "Temp ok" (JsNumber 0))
    = Resolved /\
  emitted svc_world
    (fst (AppLogger.info svc_world may_26_afternoon svc_logger "Temp ok" (JsNumber 0)))
    = [ (Engine.LogFile "./logs/" "svc-20250526.log",
         "26.05.2025, 14:30:15 |      INFO | Temp ok |");
        (Engine.ConsoleStream,
         Engine.escape 32 ++ "26.05.2025, 14:30:15 |      INFO | Temp ok |"
         ++ Engine.escape 39) ] /\
  emitted svc_world
    (fst (AppLogger.debug svc_world may_26_afternoon svc_logger "Temp ok" (JsNumber 0)))
    = [].
Proof.
  split; [ exact svc_well_formed | ].
  split; [ reflexivity | ].
  destruct (C10_falsy_payload_as_omitted svc_world may_26_afternoon svc_logger
              "info" "Temp ok" (JsNumber 0) svc_well_formed eq_refl) as (Hsame & Hlevels).
  split; [ exact Hsame | ].
  destruct (Hlevels Info) as (Homitted & _ & Hresolved & Hlines).
  split; [ exact Homitted | ]. split; [ exact Hresolved | ].
  split; [ exact (eq_trans Hlines eq_refl) | ].
  destruct (Hlevels Debug) as (_ & _ & _ & Hnone).
  exact (eq_trans Hnone eq_refl).
Defined.

(** * Further properties *)

(** ** The route in general *)

(** [split_first] is the first element of [split], which is never empty. *)
Lemma split_first_is_head (sep : ascii) (s : string) :
  head (split sep s) = Some (split_first sep s).
Proof.
  induction s as [ | c s IH ]; [ reflexivity | ].
  cbn [split split_first].
  destruct (Ascii.eqb c sep); [ reflexivity | ].
  destruct (split sep s) as [ | piece pieces ]; [ discriminate IH | ].
  cbn [head] in *. now injection IH as ->.
Qed.


Lemma split_first_lacks (sep : ascii) (a b : string) :
  lacks sep a = true -> split_first sep (a ++ String sep b) = a.
Proof.
  induction a as [ | x a IH ]; simpl.
  - intros _. now rewrite Ascii.eqb_refl.
  - intros [Hx Ha]%andb_prop. apply negb_true_iff in Hx. rewrite Hx.
    now rewrite (IH Ha).
Qed.

Lemma split_lacks_last (sep : ascii) (a : string) :
  lacks sep a = true -> split sep a = [a].
Proof.
  induction a as [ | x a IH ]; simpl; [ reflexivity | ].
  intros [Hx Ha]%andb_prop. apply negb_true_iff in Hx. rewrite Hx.
  now rewrite (IH Ha).
Qed.

Lemma split_lacks (sep : ascii) (a b : string) :
  lacks sep a = true -> split sep (a ++ String sep b) = a :: split sep b.
Proof.
  induction a as [ | x a IH ]; simpl.
  - intros _. now rewrite Ascii.eqb_refl.
  - intros [Hx Ha]%andb_prop. apply negb_true_iff in Hx. rewrite Hx.
    now rewrite (IH Ha).
Qed.

Lemma toLocaleString_parts (locale : Locale) (options : DateTimeFormatOptions)
    (t : Instant) :
  Intl.toLocaleString locale options t
  = Intl.dateOnly locale options t ++ String "," (" " ++ Intl.timeOnly options t).
Proof.
  unfold Intl.toLocaleString, Intl.dateOnly, Intl.timeOnly.
  destruct locale; now rewrite !append_assoc.
Qed.

Lemma dateOnly_lacks_comma (locale : Locale) (options : DateTimeFormatOptions)
    (t : Instant) :
  lacks "," (Intl.dateOnly locale options t) = true.
Proof.
  unfold Intl.dateOnly.
  destruct locale; rewrite !lacks_app;
    rewrite !(digits_lack "," _ eq_refl (all_digits_field _ _)); reflexivity.
Qed.

(** The date part is all [_generateRoute] reads of the rendering. *)
Lemma generateRoute_dateOnly (now : Instant) (config : LoggerConfig) (name : string) :
  AppLogger._generateRoute now config name
  = let parts := split "." (Intl.dateOnly (dateLocale config) DATE_OPTIONS now) in
    name ++ "-" ++ template (parts !! 2) ++ template (parts !! 1) ++ template (parts !! 0).
Proof.
  unfold AppLogger._generateRoute, formatDate. cbn [default].
  rewrite toLocaleString_parts, split_first_lacks by apply dateOnly_lacks_comma.
  reflexivity.
Qed.

(** X2.  The route does not depend on the time of day, in either locale. *)
Theorem generateRoute_ignores_time_of_day (t t' : Instant) (config : LoggerConfig)
    (name : string) :
  same_day t t' ->
  AppLogger._generateRoute t config name = AppLogger._generateRoute t' config name.
Proof.
  intros (Hy & Hm & Hd). rewrite !generateRoute_dateOnly.
  unfold Intl.dateOnly. now rewrite Hy, Hm, Hd.
Qed.

Lemma number_four_digits (y : nat) :
  10 * 100 <= y < 100 * 100 -> Intl.number y = Intl.pad4 y.
Proof.
  intros Hy.
  assert (Hall : forallb (fun n => String.eqb (Intl.number n) (Intl.pad4 n))
                   (seq (10 * 100) (90 * 100)) = true) by (vm_compute; reflexivity).
  rewrite forallb_forall in Hall.
  apply String.eqb_eq, Hall, in_seq. lia.
Qed.

(** X1.  In the default locale, and for a year of four digits, the route is the
    name, a hyphen and the day of construction as [YYYYMMDD]. *)
Theorem generateRoute_de_DE (now : Instant) (config : LoggerConfig) (name : string) :
  dateLocale config = de_DE ->
  four_digit_year now ->
  AppLogger._generateRoute now config name
  = name ++ "-" ++ Intl.pad4 (FullYear now) ++ Intl.pad2 (MonthNumber now)
         ++ Intl.pad2 (DayOfMonth now).
Proof.
  intros Hlocale Hyear. rewrite generateRoute_dateOnly, Hlocale.
  unfold Intl.dateOnly.
  cbn [DATE_OPTIONS day month year Intl.field].
  rewrite (number_four_digits _ Hyear).
  change (Intl.pad2 (DayOfMonth now) ++ "." ++ Intl.pad2 (MonthNumber now) ++ "."
          ++ Intl.pad4 (FullYear now))
    with (Intl.pad2 (DayOfMonth now)
          ++ String "." (Intl.pad2 (MonthNumber now) ++ String "." (Intl.pad4 (FullYear now)))).
  rewrite split_lacks by (apply digits_lack; [ reflexivity | apply all_digits_pad2 ]).
  rewrite split_lacks by (apply digits_lack; [ reflexivity | apply all_digits_pad2 ]).
  rewrite split_lacks_last by (apply digits_lack; [ reflexivity | apply all_digits_pad4 ]).
  reflexivity.
Qed.

Lemma generateRoute_de_DE_witness :
  dateLocale DEFAULT_CONFIG = de_DE /\
  four_digit_year may_26_afternoon /\
  AppLogger._generateRoute may_26_afternoon DEFAULT_CONFIG "sensor"
  = "sensor" ++ "-" ++ Intl.pad4 2025 ++ Intl.pad2 5 ++ Intl.pad2 26.
Proof.
  split; [ reflexivity | ].
  assert (Hyear : four_digit_year may_26_afternoon)
    by (unfold four_digit_year; simpl; lia).
  split; [ exact Hyear | ].
  exact (generateRoute_de_DE may_26_afternoon DEFAULT_CONFIG "sensor" eq_refl Hyear).
Defined.

(** X3.  With ['en-US'] the date part has no ['.']: the route is the name,
    [-undefinedundefined] and the date as [MM/DD/YYYY], slashes included. *)
Theorem generateRoute_en_US (now : Instant) (config : LoggerConfig) (name : string) :
  dateLocale config = en_US ->
  AppLogger._generateRoute now config name
  = name ++ "-undefinedundefined" ++ Intl.pad2 (MonthNumber now) ++ "/"
         ++ Intl.pad2 (DayOfMonth now) ++ "/" ++ Intl.number (FullYear now).
Proof.
  intros Hlocale. rewrite generateRoute_dateOnly, Hlocale.
  unfold Intl.dateOnly.
  cbn [DATE_OPTIONS day month year Intl.field].
  rewrite split_lacks_last.
  - reflexivity.
  - rewrite !lacks_app.
    rewrite !(digits_lack "." _ eq_refl (all_digits_pad2 _)).
    rewrite (digits_lack "." _ eq_refl (all_digits_number _)).
    reflexivity.
Qed.

Lemma generateRoute_en_US_witness :
  dateLocale (spread DEFAULT_CONFIG american) = en_US /\
  AppLogger._generateRoute may_26_afternoon (spread DEFAULT_CONFIG american) "sensor"
  = "sensor" ++ "-undefinedundefined" ++ Intl.pad2 5 ++ "/" ++ Intl.pad2 26 ++ "/"
    ++ Intl.number 2025.
Proof.
  split; [ reflexivity | ].
  exact (generateRoute_en_US may_26_afternoon (spread DEFAULT_CONFIG american) "sensor"
           eq_refl).
Defined.

Lemma generateRoute_time_of_day_witness :
  same_day may_26_last_second may_26_first_second /\
  AppLogger._generateRoute may_26_last_second DEFAULT_CONFIG "sensor"
  = AppLogger._generateRoute may_26_first_second DEFAULT_CONFIG "sensor".
Proof.
  assert (Hday : same_day may_26_last_second may_26_first_second)
    by (repeat split).
  split; [ exact Hday | ].
  exact (generateRoute_ignores_time_of_day may_26_last_second may_26_first_second
           DEFAULT_CONFIG "sensor" Hday).
Defined.

(** ** File names in general *)

Lemma matches_exactly_app (p q : list FilenameTest.Atom) (a b : string) :
  FilenameTest.matches_exactly p a = true ->
  FilenameTest.matches_exactly q b = true ->
  FilenameTest.matches_exactly (p ++ q) (a ++ b) = true.
Proof.
  revert a. induction p as [ | x p IH ]; intros a.
  - destruct a; [ auto | discriminate ].
  - destruct a as [ | c a ]; [ discriminate | ]. cbn [FilenameTest.matches_exactly].
    intros [Hc Ha]%andb_prop Hb. cbn [app String.append FilenameTest.matches_exactly].
    now rewrite Hc, (IH a Ha Hb).
Qed.

Lemma matches_digits (s : string) :
  all_digits s = true ->
  FilenameTest.matches_exactly (FilenameTest.digits (String.length s)) s = true.
Proof.
  unfold FilenameTest.digits.
  induction s as [ | c s IH ]; [ reflexivity | ].
  cbn [all_digits String.length repeat FilenameTest.matches_exactly
       FilenameTest.atom_matches].
  intros [Hc Hs]%andb_prop. now rewrite Hc, (IH Hs).
Qed.

Lemma matches_lits (s : string) :
  FilenameTest.matches_exactly (FilenameTest.lits s) s = true.
Proof.
  induction s as [ | c s IH ]; [ reflexivity | ].
  cbn [FilenameTest.lits list_ascii_of_string map FilenameTest.matches_exactly
       FilenameTest.atom_matches].
  rewrite Ascii.eqb_refl. exact IH.
Qed.

Lemma ends_with_app (p : list FilenameTest.Atom) (a b : string) :
  FilenameTest.ends_with p b = true -> FilenameTest.ends_with p (a ++ b) = true.
Proof.
  intros Hb. induction a as [ | c a IH ]; [ exact Hb | ].
  cbn [String.append FilenameTest.ends_with]. rewrite IH. apply orb_true_r.
Qed.

Lemma ends_with_exact (p : list FilenameTest.Atom) (b : string) :
  FilenameTest.matches_exactly p b = true -> FilenameTest.ends_with p b = true.
Proof. intros Hb. destruct b; cbn [FilenameTest.ends_with]; now rewrite Hb. Qed.

Lemma ends_with_suffix (p q : list FilenameTest.Atom) (s : string) :
  FilenameTest.ends_with (p ++ q) s = true -> FilenameTest.ends_with q s = true.
Proof.
  assert (Hexact : forall (p' : list FilenameTest.Atom) (t : string),
             FilenameTest.matches_exactly (p' ++ q) t = true ->
             FilenameTest.ends_with q t = true).
  { induction p' as [ | x p' IH ]; intros t.
    - apply ends_with_exact.
    - destruct t as [ | c t ]; [ discriminate | ].
      cbn [app FilenameTest.matches_exactly FilenameTest.ends_with].
      intros [_ Ht]%andb_prop. rewrite (IH t Ht). apply orb_true_r. }
  induction s as [ | c s IH ]; cbn [FilenameTest.ends_with].
  - rewrite orb_false_r. intros H. apply (Hexact p EmptyString) in H. exact H.
  - intros [H | H]%orb_prop.
    + apply (Hexact p (String c s)) in H. exact H.
    + rewrite (IH H). apply orb_true_r.
Qed.

(** X15.  Every name the test reports as a double date also has the shape of a
    single date: the order of the two tests matters. *)
Theorem doubleDate_is_also_singleDate (file : string) :
  FilenameTest.doubleDate file = true -> FilenameTest.singleDate file = true.
Proof.
  unfold FilenameTest.doubleDate, FilenameTest.singleDate.
  apply (ends_with_suffix (FilenameTest.lits "-" ++ FilenameTest.digits 8)).
Qed.

Lemma doubleDate_is_also_singleDate_witness :
  FilenameTest.doubleDate "rotate-test-20250526-2025-05-26.log" = true /\
  FilenameTest.singleDate "rotate-test-20250526-2025-05-26.log" = true.
Proof.
  split; [ reflexivity | ].
  apply (doubleDate_is_also_singleDate "rotate-test-20250526-2025-05-26.log").
  reflexivity.
Defined.

(** The placeholder cannot begin in [a] and end beyond a hyphen. *)
Lemma placeholder_before_hyphen (a r : string) :
  String.prefix "%DATE%" (a ++ String "-" r) = true -> 6 <= String.length a.
Proof.
  destruct a as [ | c1 [ | c2 [ | c3 [ | c4 [ | c5 [ | c6 a ] ] ] ] ] ];
    cbn [String.append String.prefix String.length];
    repeat match goal with
           | |- context [ascii_dec ?x ?y] => destruct (ascii_dec x y)
           end;
    try discriminate;
    try match goal with e : _ = _ :> ascii |- _ => discriminate e end;
    intros _; lia.
Qed.

Lemma placeholder_inside (a r : string) :
  String.prefix "%DATE%" (a ++ String "-" r) = String.prefix "%DATE%" a.
Proof.
  destruct a as [ | c1 [ | c2 [ | c3 [ | c4 [ | c5 [ | c6 a ] ] ] ] ] ];
    cbn [String.append String.prefix];
    repeat match goal with
           | |- context [ascii_dec ?x ?y] => destruct (ascii_dec x y)
           end;
    try reflexivity;
    try match goal with e : _ = _ :> ascii |- _ => discriminate e end.
  now destruct a.
Qed.

(** Replacing the placeholder in a text followed by a hyphen: the two parts
    are replaced apart. *)
Lemma replaceAll_from_hyphen (rep r : string) :
  forall (a : string) (skip : nat),
    skip <= String.length a ->
    Engine.replaceAll_from "%DATE%" rep skip (a ++ String "-" r)
    = Engine.replaceAll_from "%DATE%" rep skip a
      ++ Engine.replaceAll_from "%DATE%" rep 0 (String "-" r).
Proof.
  induction a as [ | c a IH ]; intros skip Hskip.
  - cbn [String.length] in Hskip. assert (skip = 0) as -> by lia. reflexivity.
  - cbn [String.length] in Hskip.
    change (String c a ++ String "-" r) with (String c (a ++ String "-" r)).
    cbn [Engine.replaceAll_from].
    destruct skip as [ | k ].
    + change (String c (a ++ String "-" r)) with (String c a ++ String "-" r).
      rewrite placeholder_inside.
      destruct (String.prefix "%DATE%" (String c a)) eqn:Hp.
      * assert (Hlen : 6 <= String.length (String c a)).
        { apply (placeholder_before_hyphen (String c a) r).
          now rewrite placeholder_inside. }
        cbn [String.length] in Hlen.
        rewrite IH by (cbn [String.length]; lia).
        now rewrite append_assoc.
      * rewrite IH by lia. reflexivity.
    + apply IH. lia.
Qed.

Lemma replaceAll_digits (rep a b : string) :
  all_digits a = true ->
  Engine.replaceAll_from "%DATE%" rep 0 (a ++ b)
  = a ++ Engine.replaceAll_from "%DATE%" rep 0 b.
Proof.
  induction a as [ | c a IH ]; [ reflexivity | ].
  cbn [all_digits]. intros [Hc Ha]%andb_prop.
  change (String c a ++ b) with (String c (a ++ b)).
  cbn [Engine.replaceAll_from String.prefix].
  destruct (ascii_dec "%" c) as [<- | _]; [ discriminate Hc | ].
  now rewrite (IH Ha).
Qed.

(** The file a rotating sink writes on the day [today], for a logger made
    at [now] in the default locale: the name (placeholders in it replaced
    too), the day of construction as [YYYYMMDD], and the day of the write as
    [YYYY-MM-DD]. *)
Lemma rotating_destination (now today : Instant) (config : LoggerConfig) (name : string) :
  fileRotation config = true ->
  dateLocale config = de_DE ->
  four_digit_year now ->
  map (Engine.destination today)
      (Engine.lg_transports
         (AppLogger._createWinstonLogger config (AppLogger._generateRoute now config name)))
  = Engine.LogFile (logPath config)
      (Engine.replaceAll "%DATE%" (Engine.rotationDate today) name
       ++ "-" ++ Spec.stem now ++ "-" ++ Engine.rotationDate today ++ ".log")
    :: (if String.eqb (consoleOutput config) "on" then [Engine.ConsoleStream] else []).
Proof.
  intros Hrot Hlocale Hyear.
  unfold AppLogger._createWinstonLogger. cbn [Engine.lg_transports]. rewrite Hrot.
  cbn [map Engine.destination].
  assert (Hconsole : forall l : list Engine.Destination,
             l = (if String.eqb (consoleOutput config) "on"
                  then [Engine.ConsoleStream] else []) ->
             map (Engine.destination today)
               (if String.eqb (consoleOutput config) "on"
                then [Engine.Console (Engine.combine [ Engine.printf createLogString;
                                                       Engine.colorize true ])]
                else [])
             = l)
    by (intros l ->; now destruct (String.eqb _ _)).
  rewrite (Hconsole _ eq_refl).
  f_equal. f_equal.
  rewrite (generateRoute_de_DE now config name Hlocale Hyear).
  assert (Hstem : all_digits (Spec.stem now) = true).
  { unfold Spec.stem. rewrite !all_digits_app, all_digits_pad4, !all_digits_pad2.
    reflexivity. }
  assert (Hfile : (name ++ "-" ++ Intl.pad4 (FullYear now) ++ Intl.pad2 (MonthNumber now)
                   ++ Intl.pad2 (DayOfMonth now)) ++ "-%DATE%.log"
                  = name ++ String "-" (Spec.stem now ++ "-%DATE%.log"))
    by (unfold Spec.stem; now rewrite !append_assoc).
  rewrite Hfile. unfold Engine.replaceAll.
  rewrite replaceAll_from_hyphen by lia. f_equal.
  generalize (Engine.rotationDate today) as rd. intros rd.
  cbn [Engine.replaceAll_from String.prefix].
  destruct (ascii_dec "%" "-") as [Hbad | _]; [ discriminate Hbad | ].
  change ("-" ++ Spec.stem now ++ "-" ++ rd ++ ".log")
    with (String "-" (Spec.stem now ++ String "-" (rd ++ ".log"))).
  f_equal. rewrite (replaceAll_digits _ _ _ Hstem). f_equal.
Qed.

Lemma rotationDate_shape (today : Instant) :
  FilenameTest.matches_exactly
    (FilenameTest.lits "-" ++ FilenameTest.digits 4 ++ FilenameTest.lits "-"
     ++ FilenameTest.digits 2 ++ FilenameTest.lits "-" ++ FilenameTest.digits 2
     ++ FilenameTest.lits ".log")
    ("-" ++ Engine.rotationDate today ++ ".log") = true.
Proof.
  unfold Engine.rotationDate, Intl.pad4, Intl.pad2.
  cbn [String.append FilenameTest.lits FilenameTest.digits list_ascii_of_string map repeat
       app FilenameTest.matches_exactly FilenameTest.atom_matches].
  rewrite !digit_is_digit. reflexivity.
Qed.

Lemma stem_eight_digits (now : Instant) :
  FilenameTest.matches_exactly (FilenameTest.lits "-" ++ FilenameTest.digits 8)
    ("-" ++ Spec.stem now) = true.
Proof.
  unfold Spec.stem, Intl.pad4, Intl.pad2.
  cbn [String.append FilenameTest.lits FilenameTest.digits list_ascii_of_string map repeat
       app FilenameTest.matches_exactly FilenameTest.atom_matches].
  rewrite !digit_is_digit. reflexivity.
Qed.

(** X4.  Every file a rotating logger of the default locale writes, on whatever
    day, carries two dates, the day of construction and the day of the
    write, and is what the repository's file-name test reports as a double
    date. *)
Theorem rotating_file_always_double_date (now today : Instant) (config : LoggerConfig)
    (name : string) :
  fileRotation config = true ->
  dateLocale config = de_DE ->
  four_digit_year now ->
  exists file : string,
    head (map (Engine.destination today)
            (Engine.lg_transports
               (AppLogger._createWinstonLogger config
                  (AppLogger._generateRoute now config name))))
      = Some (Engine.LogFile (logPath config) file) /\
    file = Engine.replaceAll "%DATE%" (Engine.rotationDate today) name
           ++ "-" ++ Spec.stem now ++ "-" ++ Engine.rotationDate today ++ ".log" /\
    FilenameTest.doubleDate file = true.
Proof.
  intros Hrot Hlocale Hyear. eexists. split; [ | split; [ reflexivity | ] ].
  - now rewrite (rotating_destination now today config name Hrot Hlocale Hyear).
  - unfold FilenameTest.doubleDate. apply ends_with_app.
    change ("-" ++ Spec.stem now ++ "-" ++ Engine.rotationDate today ++ ".log")
      with (("-" ++ Spec.stem now) ++ ("-" ++ Engine.rotationDate today ++ ".log")).
    apply ends_with_exact.
    rewrite (app_assoc (FilenameTest.lits "-") (FilenameTest.digits 8)).
    apply matches_exactly_app;
      [ apply stem_eight_digits | apply rotationDate_shape ].
Qed.

Lemma rotating_file_witness :
  fileRotation (spread DEFAULT_CONFIG rotating) = true /\
  dateLocale (spread DEFAULT_CONFIG rotating) = de_DE /\
  four_digit_year may_26_afternoon /\
  exists file : string,
    head (map (Engine.destination may_27_morning)
            (Engine.lg_transports
               (AppLogger._createWinstonLogger (spread DEFAULT_CONFIG rotating)
                  (AppLogger._generateRoute may_26_afternoon
                     (spread DEFAULT_CONFIG rotating) "rotate-test"))))
      = Some (Engine.LogFile (logPath (spread DEFAULT_CONFIG rotating)) file) /\
    file = Engine.replaceAll "%DATE%" (Engine.rotationDate may_27_morning) "rotate-test"
           ++ "-" ++ Spec.stem may_26_afternoon ++ "-"
           ++ Engine.rotationDate may_27_morning ++ ".log" /\
    FilenameTest.doubleDate file = true.
Proof.
  assert (Hyear : four_digit_year may_26_afternoon)
    by (unfold four_digit_year; simpl; lia).
  split; [ reflexivity | ]. split; [ reflexivity | ]. split; [ exact Hyear | ].
  exact (rotating_file_always_double_date may_26_afternoon may_27_morning
           (spread DEFAULT_CONFIG rotating) "rotate-test" eq_refl eq_refl Hyear).
Defined.

(** ** Where a call writes *)

(** Every write of the engine goes to a transport of the logger. *)
Lemma deliver_destinations (lg : Engine.Logger) (now : Instant) (e : Engine.Entry)
    (transports : list Engine.Transport) :
  forall lines : list (Engine.Destination * string),
    Engine.deliver lg now e transports = Ok lines ->
    forall (d : Engine.Destination) (line : string),
      In (d, line) lines ->
      exists t : Engine.Transport, In t transports /\ d = Engine.destination now t.
Proof.
  induction transports as [ | t ts IH ]; cbn [Engine.deliver]; intros lines Hlines d line Hin.
  - apply Ok_inj in Hlines. subst lines. destruct Hin.
  - destruct (Engine.deliver lg now e ts) as [others | err].
    + assert (Hothers : In (d, line) others ->
                        exists t' : Engine.Transport,
                          In t' (t :: ts) /\ d = Engine.destination now t').
      { intros Hin'. destruct (IH others eq_refl d line Hin') as (t' & Ht' & Hd).
        exists t'. split; [ now right | exact Hd ]. }
      destruct (Engine.isEnabled _ _ _).
      * destruct (Engine.transform _ _ _ _) as [e' | err]; cbn [bind] in Hlines;
          [ | discriminate Hlines ].
        apply Ok_inj in Hlines. subst lines.
        destruct Hin as [Hfirst | Hin]; [ | now apply Hothers ].
        exists t. split; [ now left | congruence ].
      * cbn [bind] in Hlines. apply Ok_inj in Hlines. subst lines.
        now apply Hothers.
    + destruct (Engine.isEnabled _ _ _);
        [ destruct (Engine.transform _ _ _ _) | ]; discriminate Hlines.
Qed.

Lemma genLog_destinations (w : World) (now : Instant) (self : AppLogger.t)
    (name text : string) (o : JsValue) (d : Engine.Destination) (line : string) :
  In (d, line) (emitted w (fst (AppLogger.genLog w now self name text o))) ->
  exists t : Engine.Transport,
    In t (Engine.lg_transports (AppLogger.logger self)) /\ d = Engine.destination now t.
Proof.
  rewrite genLog_log. unfold Engine.log.
  destruct (Engine.transform _ _ _ _) as [e | err]; cbn [bind];
    [ | cbn [fst]; rewrite emitted_nothing; intros [] ].
  destruct (Engine.deliver _ _ _ _) as [lines | err] eqn:Hlines; cbn [fst];
    [ | rewrite emitted_nothing; intros [] ].
  rewrite emitted_write.
  exact (deliver_destinations _ _ _ _ lines Hlines d line).
Qed.

(** The transports of an instance are those built from its configuration,
    or none once it is closed. *)
Lemma calls_transports (script : list (Instant * Call)) :
  forall (w : World) (self : AppLogger.t) (c : LoggerConfig),
    heap w !! AppLogger.config self = Some c ->
    (Engine.lg_transports (AppLogger.logger self) = [] \/
     Engine.lg_transports (AppLogger.logger self)
     = Engine.lg_transports (AppLogger._createWinstonLogger c (AppLogger.route self))) ->
    exists (w' : World) (self' : AppLogger.t),
      calls w self script = Some (w', self') /\
      AppLogger.route self' = AppLogger.route self /\
      (Engine.lg_transports (AppLogger.logger self') = [] \/
       Engine.lg_transports (AppLogger.logger self')
       = Engine.lg_transports
           (AppLogger._createWinstonLogger (merged c script) (AppLogger.route self))).
Proof.
  induction script as [ | [now [name text o | s text o | | | newConfig ] ] rest IH ];
    intros w self c Hc Hts; cbn [calls call merged].
  - now exists w, self.
  - apply IH; [ now rewrite genLog_heap | exact Hts ].
  - apply IH; [ now rewrite method_genLog, genLog_heap | exact Hts ].
  - destruct (IH w (fst (AppLogger.close self)) c Hc (or_introl eq_refl))
      as (w' & self' & Hrun & Hroute & Hts').
    now exists w', self'.
  - rewrite (getConfig_total w self c Hc). cbn [mbind option_bind fst].
    apply IH; [ | exact Hts ].
    rewrite alloc_keeps; [ exact Hc | now exists c ].
  - rewrite (updateConfig_total w self newConfig c Hc).
    match goal with
    | |- context [calls ?w1 ?self1 rest] =>
        destruct (IH w1 self1 (spread c newConfig) (alloc_fresh w _)
                    (or_intror eq_refl))
          as (w' & self' & Hrun & Hroute & Hts')
    end.
    now exists w', self'.
Qed.

(** X5.  While rotation is off in the configuration in force, a logger writes
    to the console and to one file only, named after the day of its
    construction.  After any sequence of calls on a new logger, every line
    of a further log call, on whatever day, goes to the console or to the
    file [<route>.log] in the [logPath] of the configuration in force: the
    date of the call never changes the name, only an [updateConfig] moves
    the file or turns rotation on. *)
Theorem fixed_file_for_every_day (w : World) (now : Instant) (name : string)
    (config : PartialConfig) (script : list (Instant * Call))
    (w' : World) (self' : AppLogger.t)
    (now' : Instant) (lv text : string) (o : JsValue)
    (d : Engine.Destination) (line : string) :
  let built := AppLogger.constructor w now name config in
  let inForce := merged (spread DEFAULT_CONFIG config) script in
  calls (fst built) (snd built) script = Some (w', self') ->
  fileRotation inForce = false ->
  In (d, line) (emitted w' (fst (AppLogger.genLog w' now' self' lv text o))) ->
  d = Engine.ConsoleStream \/
  d = Engine.LogFile (logPath inForce)
        (AppLogger._generateRoute now (spread DEFAULT_CONFIG config) name ++ ".log").
Proof.
  intros built inForce Hrun Hfixed Hin.
  destruct (calls_transports script (fst built) (snd built) (spread DEFAULT_CONFIG config)
              (constructor_config w now name config) (or_intror eq_refl))
    as (w1 & self1 & Hrun1 & _ & Hts).
  rewrite Hrun in Hrun1. injection Hrun1 as <- <-.
  destruct (genLog_destinations _ _ _ _ _ _ _ _ Hin) as (t & Ht & ->).
  destruct Hts as [Hnone | Hsome]; [ rewrite Hnone in Ht; destruct Ht | ].
  rewrite Hsome in Ht.
  unfold AppLogger._createWinstonLogger in Ht. cbn [Engine.lg_transports] in Ht.
  fold inForce in Ht. rewrite Hfixed in Ht.
  destruct Ht as [<- | Ht]; [ right; reflexivity | ].
  destruct (String.eqb _ _); [ | destruct Ht ].
  destruct Ht as [<- | []]. left; reflexivity.
Qed.

Lemma fixed_file_witness :
  exists (w' : World) (self' : AppLogger.t),
    calls svc_world svc_logger
      [ (may_26_afternoon, CallLevel Info "up" JsUndefined);
        (may_26_last_second, CallClose);
        (may_27_morning, CallUpdateConfig moved) ]
    = Some (w', self') /\
    fileRotation (merged (spread DEFAULT_CONFIG no_options)
                    [ (may_26_afternoon, CallLevel Info "up" JsUndefined);
                      (may_26_last_second, CallClose);
                      (may_27_morning, CallUpdateConfig moved) ]) = false /\
    In (Engine.LogFile "./archive/" "svc-20250526.log",
        "27.05.2025, 08:00:00 |     ERROR | down |")
       (emitted w'
          (fst (AppLogger.genLog w' may_27_morning self' "error" "down" JsUndefined))) /\
    (Engine.LogFile "./archive/" "svc-20250526.log" = Engine.ConsoleStream \/
     Engine.LogFile "./archive/" "svc-20250526.log"
     = Engine.LogFile
         (logPath (merged (spread DEFAULT_CONFIG no_options)
                     [ (may_26_afternoon, CallLevel Info "up" JsUndefined);
                       (may_26_last_second, CallClose);
                       (may_27_morning, CallUpdateConfig moved) ]))
         (AppLogger._generateRoute may_26_afternoon (spread DEFAULT_CONFIG no_options) "svc"
          ++ ".log")).
Proof.
  eexists _, _.
  split; [ reflexivity | ]. split; [ reflexivity | ].
  match goal with
  | |- In ?x ?l /\ _ => assert (Hin : In x l) by (left; reflexivity)
  end.
  split; [ exact Hin | ].
  exact (fixed_file_for_every_day empty_world may_26_afternoon "svc" no_options
           [ (may_26_afternoon, CallLevel Info "up" JsUndefined);
             (may_26_last_second, CallClose);
             (may_27_morning, CallUpdateConfig moved) ]
           _ _ may_27_morning "error" "down" JsUndefined _ _ eq_refl eq_refl Hin).
Defined.

(** ** The effective configuration *)

Lemma calls_configuration (script : list (Instant * Call)) :
  forall (w : World) (self : AppLogger.t) (c : LoggerConfig),
    heap w !! AppLogger.config self = Some c ->
    Engine.lg_level (AppLogger.logger self) = logTracelevel c ->
    exists (w' : World) (self' : AppLogger.t),
      calls w self script = Some (w', self') /\
      heap w' !! AppLogger.config self' = Some (merged c script) /\
      Engine.lg_level (AppLogger.logger self') = logTracelevel (merged c script).
Proof.
  induction script as [ | [now [name text o | s text o | | | newConfig ] ] rest IH ];
    intros w self c Hc Hlevel; cbn [calls call merged].
  - now exists w, self.
  - apply IH; [ now rewrite genLog_heap | exact Hlevel ].
  - apply IH; [ now rewrite method_genLog, genLog_heap | exact Hlevel ].
  - apply IH; [ exact Hc | exact Hlevel ].
  - rewrite (getConfig_total w self c Hc). cbn [mbind option_bind fst].
    apply IH; [ | exact Hlevel ].
    rewrite alloc_keeps; [ exact Hc | now exists c ].
  - rewrite (updateConfig_total w self newConfig c Hc).
    apply IH; [ apply (alloc_fresh w) | reflexivity ].
Qed.

(** X7.  The configuration in force is the last one applied: after any sequence
    of calls on a new logger, its configuration is the defaults overridden
    by the constructor's argument and then by the argument of each
    [updateConfig] in turn, no other call changing it; and the threshold the
    engine filters with is the [logTracelevel] of that configuration. *)
Theorem effective_configuration (w : World) (now : Instant) (name : string)
    (config : PartialConfig) (script : list (Instant * Call)) :
  let built := AppLogger.constructor w now name config in
  exists (w' : World) (self' : AppLogger.t),
    calls (fst built) (snd built) script = Some (w', self') /\
    heap w' !! AppLogger.config self'
      = Some (merged (spread DEFAULT_CONFIG config) script) /\
    Engine.lg_level (AppLogger.logger self')
      = logTracelevel (merged (spread DEFAULT_CONFIG config) script).
Proof.
  intros built.
  apply calls_configuration; [ apply constructor_config | reflexivity ].
Qed.

(** X8.  After [updateConfig] with a new [logTracelevel], on an open or a closed
    logger, a call of level [l] writes exactly when the rank of [l] is at
    most the rank of the new threshold. *)
Theorem updateConfig_threshold (w : World) (self : AppLogger.t) (newConfig : PartialConfig)
    (l t : Severity) (now : Instant) (text : string) :
  well_formed w self ->
  logTracelevel_opt newConfig = Some (severity_name t) ->
  exists (w' : World) (self' : AppLogger.t),
    AppLogger.updateConfig w self newConfig = Some (w', self') /\
    (emitted w' (fst (AppLogger.method l w' now self' text JsUndefined)) <> []
     <-> Spec.rank l <= Spec.rank t).
Proof.
  intros ([c Hc] & _) Hnew.
  rewrite (updateConfig_total w self newConfig c Hc).
  eexists _, _. split; [ reflexivity | ].
  rewrite method_genLog, genLog_falsy;
    [ | apply createWinstonLogger_class | reflexivity ].
  cbn [fst]. rewrite emitted_write. unfold deliveries. cbn [AppLogger.logger].
  rewrite createWinstonLogger_levels, createWinstonLogger_level.
  assert (Hlevel : logTracelevel (spread c newConfig) = severity_name t)
    by (unfold spread; cbn [logTracelevel]; now rewrite Hnew).
  rewrite Hlevel, isEnabled_severity.
  destruct (Nat.leb_spec (Spec.rank l) (Spec.rank t)) as [Hle | Hgt].
  - split; [ intros _; exact Hle | intros _ ].
    apply map_not_nil, createWinstonLogger_has_sink.
  - split; [ congruence | lia ].
Qed.

Lemma updateConfig_threshold_witness :
  well_formed svc_world svc_logger /\
  logTracelevel_opt (threshold_only "error") = Some (severity_name Error) /\
  exists (w' : World) (self' : AppLogger.t),
    AppLogger.updateConfig svc_world svc_logger (threshold_only "error") = Some (w', self') /\
    (emitted w' (fst (AppLogger.method Debug w' may_27_morning self' "quiet" JsUndefined))
       <> []
     <-> Spec.rank Debug <= Spec.rank Error).
Proof.
  split; [ exact svc_well_formed | ]. split; [ reflexivity | ].
  exact (updateConfig_threshold svc_world svc_logger (threshold_only "error")
           Debug Error may_27_morning "quiet" svc_well_formed eq_refl).
Defined.

(** X9.  The console sink exists exactly when [consoleOutput] is the string
    ['on']: an admitted call of a new logger writes to its file first and
    then, only in that case, to the console; any other value, ['ON']
    included, leaves the file alone. *)
Theorem console_only_when_on (w : World) (now : Instant) (name : string)
    (config : PartialConfig) (l t : Severity) (now' : Instant) (text : string) :
  logTracelevel (spread DEFAULT_CONFIG config) = severity_name t ->
  Spec.rank l <= Spec.rank t ->
  let built := AppLogger.constructor w now name config in
  exists file : string,
    map fst (emitted (fst built)
               (fst (AppLogger.method l (fst built) now' (snd built) text JsUndefined)))
    = Engine.LogFile (logPath (spread DEFAULT_CONFIG config)) file
      :: (if String.eqb (consoleOutput (spread DEFAULT_CONFIG config)) "on"
          then [Engine.ConsoleStream] else []).
Proof.
  intros Hlevel Hle built. subst built.
  rewrite method_genLog, genLog_falsy;
    [ | apply constructor_well_formed | reflexivity ].
  cbn [fst]. rewrite emitted_write. unfold deliveries.
  unfold AppLogger.constructor. cbn [snd alloc AppLogger.logger].
  rewrite createWinstonLogger_levels, createWinstonLogger_level, Hlevel.
  rewrite isEnabled_severity.
  apply Nat.leb_le in Hle. rewrite Hle.
  rewrite map_map. cbn [fst].
  unfold AppLogger._createWinstonLogger. cbn [Engine.lg_transports map].
  destruct (fileRotation _); eexists; cbn [Engine.destination];
    (f_equal; now destruct (String.eqb _ _)).
Qed.

Lemma console_only_when_on_witness :
  logTracelevel (spread DEFAULT_CONFIG console_ON) = severity_name Info /\
  Spec.rank Error <= Spec.rank Info /\
  exists file : string,
    map fst (emitted (fst (AppLogger.constructor empty_world may_26_afternoon "svc" console_ON))
               (fst (AppLogger.method Error
                       (fst (AppLogger.constructor empty_world may_26_afternoon "svc"
                               console_ON))
                       may_27_morning
                       (snd (AppLogger.constructor empty_world may_26_afternoon "svc"
                               console_ON))
                       "down" JsUndefined)))
    = Engine.LogFile (logPath (spread DEFAULT_CONFIG console_ON)) file
      :: (if String.eqb (consoleOutput (spread DEFAULT_CONFIG console_ON)) "on"
          then [Engine.ConsoleStream] else []).
Proof.
  split; [ reflexivity | ].
  assert (Hle : Spec.rank Error <= Spec.rank Info) by (simpl; lia).
  split; [ exact Hle | ].
  exact (console_only_when_on empty_world may_26_afternoon "svc" console_ON Error Info
           may_27_morning "down" eq_refl Hle).
Defined.

(** ** Rejected calls *)



(** ** Line breaks *)

Lemma upper_ascii_LF (c : ascii) : Ascii.eqb (upper_ascii c) LF = Ascii.eqb c LF.
Proof. destruct c as [ [] [] [] [] [] [] [] [] ]; reflexivity. Qed.

Lemma toUpperCase_lacks_LF (s : string) : lacks LF (toUpperCase s) = lacks LF s.
Proof.
  induction s as [ | c s IH ]; [ reflexivity | ].
  cbn [toUpperCase lacks]. now rewrite upper_ascii_LF, IH.
Qed.

Lemma spaces_lack_LF (n : nat) : lacks LF (spaces n) = true.
Proof. induction n as [ | n IH ]; [ reflexivity | ]. cbn [spaces lacks]. now rewrite IH. Qed.

Lemma formatDate_lacks_LF (now : Instant) (locale : option Locale) :
  lacks LF (formatDate now locale) = true.
Proof.
  unfold formatDate, Intl.toLocaleString.
  destruct (default de_DE locale); rewrite !lacks_app;
    rewrite !(digits_lack LF _ eq_refl (all_digits_field _ _)); reflexivity.
Qed.

(** X11.  A line has a line feed in it exactly when the level name or the message
    has one: the message is written as it is, while the payload, serialized
    by [JSON.stringify], never brings one. *)
Theorem line_breaks_only_from_message (now : Instant) (info : LogInfo) (line : string) :
  createLogString now info = Ok line ->
  lacks LF line = lacks LF (level info) && lacks LF (message info).
Proof.
  destruct info as [name text [o | ] ]; cbn [level message].
  - rewrite createLogString_some. unfold plain_line.
    destruct (truthy o).
    + destruct (stringify_cases o) as [Hbig Hnone].
      destruct (has_bigint o).
      * rewrite (Hbig eq_refl). discriminate.
      * destruct (Hnone eq_refl) as (t & -> & Ht). cbn [bind].
        intros Hline; apply Ok_inj in Hline; subst line.
        unfold padStart.
        rewrite !lacks_app, formatDate_lacks_LF, spaces_lack_LF, toUpperCase_lacks_LF, Ht.
        cbn [lacks Ascii.eqb Bool.eqb LF negb andb]. now rewrite !andb_true_r.
    + intros Hline; apply Ok_inj in Hline; subst line. unfold padStart.
      rewrite !lacks_app, formatDate_lacks_LF, spaces_lack_LF, toUpperCase_lacks_LF.
      cbn [lacks Ascii.eqb Bool.eqb LF negb andb]. now rewrite !andb_true_r.
  - rewrite createLogString_no_obj. unfold plain_line.
    intros Hline; apply Ok_inj in Hline; subst line. unfold padStart.
    rewrite !lacks_app, formatDate_lacks_LF, spaces_lack_LF, toUpperCase_lacks_LF.
    cbn [lacks Ascii.eqb Bool.eqb LF negb andb]. now rewrite !andb_true_r.
Qed.

Lemma line_breaks_witness :
  exists line : string,
    createLogString may_26_afternoon
      {| level := "info"; message := "two" ++ String LF "lines";
         obj := Some (JsString ("pay" ++ String LF "load")) |} = Ok line /\
    lacks LF line = lacks LF "info" && lacks LF ("two" ++ String LF "lines").
Proof.
  eexists. split; [ reflexivity | ].
  apply (line_breaks_only_from_message may_26_afternoon
           {| level := "info"; message := "two" ++ String LF "lines";
              obj := Some (JsString ("pay" ++ String LF "load")) |}).
  reflexivity.
Defined.

(** ** The timestamp of every written line *)

Lemma replace_keeps (pattern rep a b : string) :
  lacks Engine.ESC a = true ->
  Engine.replaceAll_from (String Engine.ESC pattern) rep 0 (a ++ b)
  = a ++ Engine.replaceAll_from (String Engine.ESC pattern) rep 0 b.
Proof.
  induction a as [ | x a IH ]; [ reflexivity | ].
  cbn [lacks]. intros [Hx Ha]%andb_prop.
  change (String x a ++ b) with (String x (a ++ b)).
  cbn [Engine.replaceAll_from String.prefix].
  destruct (ascii_dec Engine.ESC x) as [<- | _].
  - rewrite Ascii.eqb_refl in Hx. discriminate Hx.
  - now rewrite (IH Ha).
Qed.

Lemma breaks_keep (closing opening a b : string) :
  lacks LF a = true -> lacks Engine.CR a = true ->
  Engine.around_line_breaks closing opening false (a ++ b)
  = a ++ Engine.around_line_breaks closing opening false b.
Proof.
  induction a as [ | x a IH ]; [ reflexivity | ].
  cbn [lacks]. intros [Hx Ha]%andb_prop [Hy Hb]%andb_prop.
  change (String x a ++ b) with (String x (a ++ b)).
  cbn [Engine.around_line_breaks]. unfold Engine.is_line_break.
  apply negb_true_iff in Hx, Hy. rewrite Hx, Hy. cbn [orb].
  now rewrite (IH Ha Hb).
Qed.

Lemma append_not_empty (a b : string) : a <> EmptyString -> String.eqb (a ++ b) "" = false.
Proof. destruct a; [ congruence | reflexivity ]. Qed.

(** A style leaves the beginning of a text as it is, behind its opening
    sequence, when that beginning has no escape and no line break in it;
    [front] is a part in front of it that the style is known to keep. *)
Lemma style_prefix (o c : nat) (front a b : string) :
  (forall x : string,
      Engine.replaceAll (Engine.escape c) (Engine.escape o) (front ++ x)
      = front ++ Engine.replaceAll (Engine.escape c) (Engine.escape o) x) ->
  lacks LF (Engine.escape o ++ front) = true ->
  lacks Engine.CR (Engine.escape o ++ front) = true ->
  a <> EmptyString ->
  lacks Engine.ESC a = true -> lacks LF a = true -> lacks Engine.CR a = true ->
  exists rest : string,
    Engine.style o c (front ++ a ++ b) = Engine.escape o ++ front ++ a ++ rest.
Proof.
  intros Hfront Hlf Hcr Hne Hesc Ha_lf Ha_cr. unfold Engine.style.
  assert (Hfull : String.eqb (front ++ a ++ b) "" = false).
  { destruct front; [ exact (append_not_empty a b Hne) | reflexivity ]. }
  rewrite Hfull, Hfront.
  assert (Hkeep : Engine.replaceAll (Engine.escape c) (Engine.escape o) (a ++ b)
                  = a ++ Engine.replaceAll (Engine.escape c) (Engine.escape o) b)
    by (unfold Engine.replaceAll, Engine.escape; now apply replace_keeps).
  rewrite Hkeep.
  set (tail := Engine.replaceAll (Engine.escape c) (Engine.escape o) b).
  assert (Hshape : Engine.escape o ++ (front ++ a ++ tail) ++ Engine.escape c
                   = ((Engine.escape o ++ front) ++ a) ++ tail ++ Engine.escape c)
    by now rewrite !append_assoc.
  cbv zeta. rewrite Hshape.
  destruct (lacks LF (front ++ a ++ b)).
  - eexists. rewrite !append_assoc. reflexivity.
  - rewrite breaks_keep by (rewrite lacks_app; now apply andb_true_intro).
    eexists. rewrite !append_assoc. reflexivity.
Qed.

(** The console line keeps the beginning of the rendered line, behind the
    opening sequences of the level's colours. *)
Lemma paint_prefix (l : Severity) (a b : string) :
  a <> EmptyString ->
  lacks Engine.ESC a = true -> lacks LF a = true -> lacks Engine.CR a = true ->
  exists rest : string, paint l (a ++ b) = opening l ++ a ++ rest.
Proof.
  intros Hne Hesc Hlf Hcr.
  assert (Hplain : forall o c : nat,
             lacks LF (Engine.escape o) = true ->
             lacks Engine.CR (Engine.escape o) = true ->
             exists rest : string,
               Engine.style o c (a ++ b) = Engine.escape o ++ a ++ rest).
  { intros o c Ho_lf Ho_cr.
    apply (style_prefix o c "" a b); try assumption; try reflexivity;
      rewrite lacks_app; now apply andb_true_intro. }
  destruct l; cbn [paint opening]; try (apply Hplain; reflexivity).
  destruct (Hplain 31 39 eq_refl eq_refl) as [inner ->].
  destruct (style_prefix 1 22 (Engine.escape 31) a inner) as [rest Hrest];
    try assumption; try reflexivity.
  exists rest. rewrite Hrest. now rewrite append_assoc.
Qed.

Lemma timestamp_lacks (c : ascii) (now : Instant) :
  In c [ Engine.ESC; LF; Engine.CR ] ->
  lacks c (Intl.toLocaleString de_DE DATE_OPTIONS now ++ " | ") = true.
Proof.
  intros Hc. unfold Intl.toLocaleString. rewrite !lacks_app.
  destruct Hc as [<- | [<- | [<- | [] ] ] ];
    [ rewrite !(digits_lack Engine.ESC _ eq_refl (all_digits_field _ _))
    | rewrite !(digits_lack LF _ eq_refl (all_digits_field _ _))
    | rewrite !(digits_lack Engine.CR _ eq_refl (all_digits_field _ _)) ];
    reflexivity.
Qed.

(** X6.  Whatever locale the logger is configured with, every line it writes
    carries the instant of the call rendered for ['de-DE']: a line in a
    file begins with it, and the line on the console, which is painted in
    the colours of its level, begins with the opening escape sequences of
    those colours and then with it. *)
Theorem written_lines_are_stamped_de_DE (w : World) (now : Instant) (self : AppLogger.t)
    (l : Severity) (text : string) (o : JsValue) (d : Engine.Destination) (line : string) :
  well_formed w self ->
  In (d, line) (emitted w (fst (AppLogger.genLog w now self (severity_name l) text o))) ->
  exists rest : string,
    line = match d with
           | Engine.ConsoleStream => opening l
           | Engine.LogFile _ _ => EmptyString
           end ++ Intl.toLocaleString de_DE DATE_OPTIONS now ++ " | " ++ rest.
Proof.
  intros (_ & Hclass) Hin.
  rewrite (genLog_outcome _ _ _ _ _ _ Hclass) in Hin.
  destruct (createLogString _ _) as [rendered | e] eqn:Hline; cbn [fst] in Hin;
    [ | rewrite emitted_nothing in Hin; destruct Hin ].
  rewrite emitted_write in Hin. unfold deliveries in Hin.
  destruct (Engine.isEnabled _ _ _); [ | destruct Hin ].
  apply in_map_iff in Hin as (t & Heq & _). injection Heq as <- <-.
  destruct (line_timestamp_is_de_DE now _ rendered Hline) as [rest ->].
  destruct t as [dir file pat size files fmt | dir file fmt | fmt];
    cbn [Engine.destination sink_line]; try (exists rest; reflexivity).
  rewrite <- append_assoc.
  destruct (paint_prefix l (Intl.toLocaleString de_DE DATE_OPTIONS now ++ " | ") rest)
    as [rest' Hpaint].
  - intros Hempty. apply (f_equal String.length) in Hempty.
    rewrite length_append in Hempty. cbn [String.length] in Hempty. lia.
  - apply timestamp_lacks. now left.
  - apply timestamp_lacks. right; now left.
  - apply timestamp_lacks. right; right; now left.
  - exists rest'. rewrite Hpaint. now rewrite !append_assoc.
Qed.

(** X6 at an [error] call of the default logger: the console line begins
    with the sequence for red. *)
Lemma written_lines_witness :
  well_formed svc_world svc_logger /\
  In (Engine.ConsoleStream,
      Engine.escape 31 ++ "27.05.2025, 08:00:00 |     ERROR | down |" ++ Engine.escape 39)
     (emitted svc_world
        (fst (AppLogger.genLog svc_world may_27_morning svc_logger "error" "down"
                JsUndefined))) /\
  exists rest : string,
    Engine.escape 31 ++ "27.05.2025, 08:00:00 |     ERROR | down |" ++ Engine.escape 39
    = opening Error ++ Intl.toLocaleString de_DE DATE_OPTIONS may_27_morning ++ " | " ++ rest.
Proof.
  split; [ exact svc_well_formed | ].
  match goal with
  | |- In ?x ?lines /\ _ => assert (Hin : In x lines) by (right; left; reflexivity)
  end.
  split; [ exact Hin | ].
  exact (written_lines_are_stamped_de_DE svc_world may_27_morning svc_logger
           Error "down" JsUndefined _ _ svc_well_formed Hin).
Defined.

(** ** The log directory *)

Lemma same_directory_eq (a b : Node.Directory) :
  Node.same_directory a b = true <-> a = b.
Proof.
  revert b. induction a as [ | x a IH ]; intros [ | y b ]; cbn [Node.same_directory];
    try (split; [ discriminate | discriminate ]); [ tauto | ].
  rewrite andb_true_iff, String.eqb_eq, IH.
  split; [ intros [-> ->]; reflexivity | intros [= -> ->]; auto ].
Qed.

Lemma existsSync_In (fs : Node.FileSystem) (d : Node.Directory) :
  Node.existsSync fs d = true <-> In d fs.
Proof.
  unfold Node.existsSync. rewrite existsb_exists. split.
  - intros (x & Hx & Heq). apply same_directory_eq in Heq. now subst.
  - intros Hd. exists d. split; [ exact Hd | now apply same_directory_eq ].
Qed.

Lemma mkdir_In (fs : Node.FileSystem) (d a : Node.Directory) :
  In a (Node.mkdirSync_recursive fs d) <-> In a fs \/ In a (Node.ancestors d).
Proof.
  unfold Node.mkdirSync_recursive. rewrite in_app_iff, filter_In, negb_true_iff.
  split.
  - intros [H | [H _] ]; auto.
  - intros [H | H]; [ now left | ].
    destruct (Node.existsSync fs a) eqn:Ha; [ left; now apply existsSync_In | right; auto ].
Qed.

Lemma ancestors_self (d : Node.Directory) : In d (Node.ancestors d).
Proof.
  induction d as [ | x d IH ]; [ now left | ].
  cbn [Node.ancestors]. right. now apply in_map.
Qed.

Lemma ancestors_length (d a : Node.Directory) :
  In a (Node.ancestors d) -> length a <= length d.
Proof.
  revert a. induction d as [ | x d IH ]; intros a; cbn [Node.ancestors].
  - intros [<- | [] ]. reflexivity.
  - intros [<- | Ha]; [ cbn; lia | ].
    apply in_map_iff in Ha as (b & <- & Hb). apply IH in Hb. cbn [length]. lia.
Qed.

Lemma ensure_In (fs : Node.FileSystem) (cwd : Node.Directory) (config : LoggerConfig)
    (a : Node.Directory) :
  In a (AppLogger._ensureLogDirectory fs cwd config) <->
  In a fs \/
  (~ In (Node.dirname (Node.resolve cwd (logPath config))) fs /\
   In a (Node.ancestors (Node.dirname (Node.resolve cwd (logPath config))))).
Proof.
  unfold AppLogger._ensureLogDirectory.
  destruct (Node.existsSync fs _) eqn:Hex; cbn [negb].
  - apply existsSync_In in Hex. tauto.
  - rewrite mkdir_In.
    assert (Hno : ~ In (Node.dirname (Node.resolve cwd (logPath config))) fs)
      by (rewrite <- existsSync_In, Hex; discriminate).
    tauto.
Qed.

(** X12.  After [_ensureLogDirectory] the parent of the resolved log path exists,
    nothing that existed is gone, and a second call changes nothing. *)
Theorem ensureLogDirectory_parent_exists (fs : Node.FileSystem) (cwd : Node.Directory)
    (config : LoggerConfig) :
  let fs' := AppLogger._ensureLogDirectory fs cwd config in
  Node.existsSync fs' (Node.dirname (Node.resolve cwd (logPath config))) = true /\
  (forall d : Node.Directory, Node.existsSync fs d = true -> Node.existsSync fs' d = true) /\
  AppLogger._ensureLogDirectory fs' cwd config = fs'.
Proof.
  intros fs'.
  assert (Hparent : Node.existsSync fs' (Node.dirname (Node.resolve cwd (logPath config)))
                    = true).
  { apply existsSync_In. subst fs'. apply ensure_In.
    destruct (Node.existsSync fs (Node.dirname (Node.resolve cwd (logPath config))))
      eqn:Hex.
    - left. now apply existsSync_In.
    - right. split; [ rewrite <- existsSync_In, Hex; discriminate | apply ancestors_self ]. }
  split; [ exact Hparent | ]. split.
  - intros d Hd. apply existsSync_In. subst fs'. apply ensure_In. left.
    now apply existsSync_In.
  - unfold AppLogger._ensureLogDirectory at 1. now rewrite Hparent.
Qed.

(** X13.  [_ensureLogDirectory] never creates the log directory itself: the
    directory it looks for and creates is the parent of the resolved log
    path, so a log directory that is missing is still missing afterwards. *)
Theorem ensureLogDirectory_leaves_log_directory_missing (fs : Node.FileSystem)
    (cwd : Node.Directory) (config : LoggerConfig) :
  Node.resolve cwd (logPath config) <> [] ->
  Node.existsSync fs (Node.resolve cwd (logPath config)) = false ->
  Node.existsSync (AppLogger._ensureLogDirectory fs cwd config)
    (Node.resolve cwd (logPath config)) = false.
Proof.
  intros Hroot Hmissing.
  destruct (Node.existsSync (AppLogger._ensureLogDirectory fs cwd config) _) eqn:Hex;
    [ | reflexivity ].
  apply existsSync_In, ensure_In in Hex as [Hin | [_ Hin] ].
  - apply existsSync_In in Hin. congruence.
  - apply ancestors_length in Hin. unfold Node.dirname in Hin.
    destruct (Node.resolve cwd (logPath config)) as [ | x rest ] eqn:Hres;
      [ congruence | ].
    assert (Hlen : length (removelast (x :: rest)) = length rest).
    { clear. revert x. induction rest as [ | y rest IH ]; intros x; [ reflexivity | ].
      change (removelast (x :: y :: rest)) with (x :: removelast (y :: rest)).
      cbn [length]. now rewrite IH. }
    rewrite Hlen in Hin. cbn [length] in Hin. lia.
Qed.

Lemma ensureLogDirectory_witness :
  Node.resolve ["app"] (logPath DEFAULT_CONFIG) <> [] /\
  Node.existsSync [ []; ["app"] ] (Node.resolve ["app"] (logPath DEFAULT_CONFIG)) = false /\
  Node.existsSync (AppLogger._ensureLogDirectory [ []; ["app"] ] ["app"] DEFAULT_CONFIG)
    (Node.resolve ["app"] (logPath DEFAULT_CONFIG)) = false.
Proof.
  assert (Hroot : Node.resolve ["app"] (logPath DEFAULT_CONFIG) <> []) by discriminate.
  split; [ exact Hroot | ]. split; [ reflexivity | ].
  exact (ensureLogDirectory_leaves_log_directory_missing [ []; ["app"] ] ["app"]
           DEFAULT_CONFIG Hroot eq_refl).
Defined.

(** ** Configuration objects are never changed in place *)

Lemma call_keeps_objects (w : World) (self : AppLogger.t) (now : Instant) (c : Call)
    (w' : World) (self' : AppLogger.t) (r : nat) (held : LoggerConfig) :
  call w self now c = Some (w', self') ->
  heap w !! r = Some held ->
  heap w' !! r = Some held.
Proof.
  destruct c as [name text o | s text o | | | newConfig ]; cbn [call].
  - intros [= <- _]. now rewrite genLog_heap.
  - intros [= <- _]. now rewrite method_genLog, genLog_heap.
  - now intros [= <- _].
  - unfold AppLogger.getConfig.
    destruct (heap w !! AppLogger.config self) as [c | ]; [ | discriminate ].
    cbn [mbind option_bind fst]. intros [= <- _] Hr.
    change (heap (fst (alloc w c)) !! r = Some held).
    rewrite alloc_keeps; [ exact Hr | now exists held ].
  - unfold AppLogger.updateConfig.
    destruct (heap w !! AppLogger.config self) as [c | ]; [ | discriminate ].
    cbn [mbind option_bind]. intros [= <- _] Hr.
    change (heap (fst (alloc w (spread c newConfig))) !! r = Some held).
    rewrite alloc_keeps; [ exact Hr | now exists held ].
Qed.

(** X14.  No call of the class changes a configuration object that already
    exists: [updateConfig] makes a new object, so a snapshot a client took
    earlier, and an object the client holds itself, keep their fields
    through any later sequence of calls. *)
Theorem calls_keep_objects (script : list (Instant * Call)) (w : World) (self : AppLogger.t)
    (w' : World) (self' : AppLogger.t) (r : nat) (held : LoggerConfig) :
  calls w self script = Some (w', self') ->
  heap w !! r = Some held ->
  heap w' !! r = Some held.
Proof.
  revert w self. induction script as [ | [now c] rest IH ]; intros w self; cbn [calls].
  - now intros [= <- _].
  - destruct (call w self now c) as [ [w1 self1] | ] eqn:Hcall; [ | discriminate ].
    intros Hrest Hr. apply (IH w1 self1 Hrest).
    exact (call_keeps_objects w self now c w1 self1 r held Hcall Hr).
Qed.

Lemma calls_keep_objects_witness :
  exists (w' : World) (self' : AppLogger.t),
    calls svc_world svc_logger
      [ (may_26_afternoon, CallGetConfig);
        (may_27_morning, CallUpdateConfig rotating);
        (may_27_morning, CallLevel Info "rotating now" JsUndefined) ]
    = Some (w', self') /\
    heap svc_world !! 0 = Some DEFAULT_CONFIG /\
    heap w' !! 0 = Some DEFAULT_CONFIG.
Proof.
  eexists _, _.
  assert (Hrun : calls svc_world svc_logger
                   [ (may_26_afternoon, CallGetConfig);
                     (may_27_morning, CallUpdateConfig rotating);
                     (may_27_morning, CallLevel Info "rotating now" JsUndefined) ]
                 = Some (fst (AppLogger.method Info
                                (fst (alloc (fst (alloc svc_world DEFAULT_CONFIG))
                                        (spread DEFAULT_CONFIG rotating)))
                                may_27_morning
                                {| AppLogger.config := 2;
                                   AppLogger.route := AppLogger.route svc_logger;
                                   AppLogger.logger :=
                                     AppLogger._createWinstonLogger
                                       (spread DEFAULT_CONFIG rotating)
                                       (AppLogger.route svc_logger) |}
                                "rotating now" JsUndefined),
                         {| AppLogger.config := 2;
                            AppLogger.route := AppLogger.route svc_logger;
                            AppLogger.logger :=
                              AppLogger._createWinstonLogger
                                (spread DEFAULT_CONFIG rotating)
                                (AppLogger.route svc_logger) |}))
    by reflexivity.
  split; [ exact Hrun | ]. split; [ reflexivity | ].
  exact (calls_keep_objects _ svc_world svc_logger _ _ 0 DEFAULT_CONFIG Hrun eq_refl).
Defined.
